(** * nucypher-monitor: the crawler's metadata store and its historical queries

    A shallow embedding of [monitor/db.py]:

    - [CrawlerNodeStorage], the SQLite-backed store of node rows, fleet-state
      rows and the current teacher, a subclass of nucypher's
      [SQLiteForgetfulNodeStorage];
    - [CrawlerDBClient], the reader of daily aggregates from InfluxDB.

    Python exceptions are an explicit [outcome]; the database a connection is
    attached to is explicit state; SQL text is kept as the list of tokens the
    source's f-strings spell, and goes through a parser before it runs, so a
    statement that SQLite would refuse is refused here as well. Locked stakes
    are binary64 floats, as in Python.

    What lies outside the repository is a parameter: the base class
    ([SQLiteForgetfulNodeStorage]), [maya]'s conversions and SQLite's
    [datetime()]; [Sample] and [Utc] hold concrete ones to run the
    definitions on. The text of the two InfluxQL queries is kept word by
    word and read by a parser as well; InfluxDB's answer to them is a model
    of its documented semantics. [Crawler] itself is missing from the
    sources and is modelled from the specification.

    Properties, by claim:
    - C1  [clear_metadata_raises]
    - C2  [init_db_tables_recreates_state_table]
    - C3  [repeated_writes_keep_one_row]
    - C4  [previous_states_ordered_and_limited]
    - C5  [locked_tokens_by_day]
    - C6  [queried_window_is_the_last_days]
    - C7  [start_unreachable_stays_stopped]
    - C8  [clear_certificates_keeps_tables]
    - C9  [readers_use_their_own_connection]
    - C10 [falsy_aggregates_are_omitted] *)

From Stdlib Require Import ZArith List Bool Lia OrderedTypeEx.
From Stdlib Require Import Floats.PrimFloat.
From stdpp Require Import base option list strings gmap sorting.

Open Scope Z_scope.

(* ===================================================================== *)
(** * Python outcomes and a state-and-exception monad                     *)
(* ===================================================================== *)

Module Py.

(** Why SQLite refused a statement ([sqlite3.OperationalError],
    [sqlite3.ProgrammingError] and [sqlite3.IntegrityError] carry these as
    their message). *)
Inductive sqlite_error :=
| SyntaxError
| NoSuchTable (t : string)
| TableAlreadyExists (t : string)
| NoSuchColumn (c : string)
| NoSuchFunction (f : string)
| WrongNumberOfValues
| WrongNumberOfBindings
| UnableToOpen (path : string)
| ClosedDatabase
| DatatypeMismatch.

Inductive exn :=
| OperationalError (why : sqlite_error)
| ProgrammingError (why : sqlite_error)
| IntegrityError (why : sqlite_error)
| IndexError
| TypeError
| ValueError
| OverflowError
| ConnectionError
| InfluxDBClientError.

Inductive outcome (A : Type) :=
| Return (a : A)
| Raise (e : exn).
Arguments Return {A} a.
Arguments Raise {A} e.

(** A computation over a state [S]: it ends with a value or an exception,
    and always with a state. *)
Definition M (S A : Type) : Type := S -> outcome A * S.

Definition ret {S A} (a : A) : M S A := fun s => (Return a, s).

Definition bind {S A B} (m : M S A) (k : A -> M S B) : M S B :=
  fun s => match m s with
           | (Return a, s') => k a s'
           | (Raise e, s') => (Raise e, s')
           end.

(** [try: body finally: cleanup]: the cleanup runs on both paths; the
    body's outcome stands unless the cleanup itself raises. *)
Definition try_finally {S A} (body : M S A) (cleanup : M S unit) : M S A :=
  fun s => match body s with
           | (r, s') => match cleanup s' with
                        | (Return _, s'') => (r, s'')
                        | (Raise e, s'') => (Raise e, s'')
                        end
           end.

(** [for x in xs: body x], stopping at the first exception. *)
Fixpoint for_each {S A} (xs : list A) (body : A -> M S unit) : M S unit :=
  match xs with
  | [] => ret tt
  | x :: rest => bind (body x) (fun _ => for_each rest body)
  end.

(** The same loop threading an accumulator, for loops that fill a local
    dict or list. *)
Fixpoint fold_each {A B} (xs : list A) (acc : B) (body : B -> A -> outcome B)
  : outcome B :=
  match xs with
  | [] => Return acc
  | x :: rest => match body acc x with
                 | Return acc' => fold_each rest acc' body
                 | Raise e => Raise e
                 end
  end.

Definition lift {S A} (o : outcome A) : M S A := fun s => (o, s).

Definition is_return {A} (o : outcome A) : bool :=
  match o with Return _ => true | Raise _ => false end.

End Py.
Export Py.

Notation "'do' x <- c ; k" := (bind c (fun x => k))
  (at level 10, x name, c at level 100, k at level 200).
Notation "'do_' c ; k" := (bind c (fun _ => k))
  (at level 10, c at level 100, k at level 200).

(* ===================================================================== *)
(** * SQLite: values, tables, statements                                  *)
(* ===================================================================== *)

Module Sqlite.

(** Storage classes the store uses. *)
Inductive value :=
| VNull
| VInt (z : Z)
| VText (s : string).

#[global] Instance value_eq_dec : EqDecision value.
Proof. solve_decision. Defined.

#[global] Instance value_countable : Countable value.
Proof.
  refine (inj_countable'
    (fun v => match v with
              | VNull => inl tt
              | VInt z => inr (inl z)
              | VText s => inr (inr s)
              end)
    (fun x => match x with
              | inl _ => VNull
              | inr (inl z) => VInt z
              | inr (inr s) => VText s
              end) _).
  by intros [].
Defined.

Definition row := list value.

(** A table: its column names, the position of its PRIMARY KEY column when
    it has one, and its rows in rowid order. *)
Record table := Table {
  columns : list string;
  primary_key : option nat;
  rows : list row;
}.

Abbreviation database := (gmap string table).

Definition value_eqb (a b : value) : bool :=
  match a, b with
  | VNull, VNull => true
  | VInt x, VInt y => x =? y
  | VText s, VText t => String.eqb s t
  | _, _ => false
  end.

(** The order ORDER BY sorts by: NULL first, then numbers, then text
    (compared bytewise). *)
Definition value_leb (a b : value) : bool :=
  match a, b with
  | VNull, _ => true
  | _, VNull => false
  | VInt x, VInt y => x <=? y
  | VInt _, VText _ => true
  | VText _, VInt _ => false
  | VText s, VText t => String.leb s t
  end.

(** SQLite's built-in [datetime()] is code of SQLite, not of this
    repository: it is taken as given. *)
Class Builtins := {
  datetime : value -> value;
}.

(** ** SQL text *)

Inductive keyword :=
| DROP | TABLE | IF | EXISTS | CREATE | PRIMARY | KEY | DELETE | FROM
| REPLACE | INTO | VALUES | SELECT | ORDER | BY | DESC | LIMIT.

(** A word that is no keyword is an identifier, whatever it spells. *)
Inductive token :=
| K (k : keyword)
| Id (s : string)
| Num (z : Z)
| Star
| LParen
| RParen
| Comma
| QMark.

Definition sql := list token.

Record column_def := ColumnDef {
  col_name : string;
  col_type : string;
  col_primary_key : bool;
}.

Inductive statement :=
| DropTableIfExists (t : string)
| CreateTable (t : string) (cols : list column_def)
| DeleteFrom (t : string)
| ReplaceInto (t : string) (n_values : nat)
| SelectAll (t : string)
| SelectAllOrderDescLimit (t : string) (fn col : string) (limit : Z).

(** [name type [PRIMARY KEY] , ... )] *)
Fixpoint parse_column_defs (ts : list token) : option (list column_def) :=
  match ts with
  | Id n :: Id ty :: K PRIMARY :: K KEY :: RParen :: [] =>
      Some [ColumnDef n ty true]
  | Id n :: Id ty :: RParen :: [] =>
      Some [ColumnDef n ty false]
  | Id n :: Id ty :: K PRIMARY :: K KEY :: Comma :: rest =>
      cons (ColumnDef n ty true) <$> parse_column_defs rest
  | Id n :: Id ty :: Comma :: rest =>
      cons (ColumnDef n ty false) <$> parse_column_defs rest
  | _ => None
  end.

(** [? , ? , ... )] *)
Fixpoint parse_placeholders (ts : list token) : option nat :=
  match ts with
  | QMark :: RParen :: [] => Some 1%nat
  | QMark :: Comma :: rest => S <$> parse_placeholders rest
  | _ => None
  end.

Definition parse (q : sql) : option statement :=
  match q with
  | [K DROP; K TABLE; K IF; K EXISTS; Id t] => Some (DropTableIfExists t)
  | K CREATE :: K TABLE :: Id t :: LParen :: defs =>
      CreateTable t <$> parse_column_defs defs
  | [K DELETE; K FROM; Id t] => Some (DeleteFrom t)
  | K REPLACE :: K INTO :: Id t :: K VALUES :: LParen :: marks =>
      ReplaceInto t <$> parse_placeholders marks
  | [K SELECT; Star; K FROM; Id t] => Some (SelectAll t)
  | [K SELECT; Star; K FROM; Id t; K ORDER; K BY; Id fn; LParen; Id col; RParen;
     K DESC; K LIMIT; Num n] => Some (SelectAllOrderDescLimit t fn col n)
  | _ => None
  end.

(** ** Running a statement *)

(** What [execute] hands back: the column names of [description] and the
    rows the cursor iterates over. *)
Record cursor := Cursor {
  description : list string;
  fetched : list row;
}.

Definition no_rows : cursor := Cursor [] [].

Fixpoint find_primary_key (cols : list column_def) : option nat :=
  match cols with
  | [] => None
  | c :: rest => if col_primary_key c then Some 0%nat
                 else S <$> find_primary_key rest
  end.

Fixpoint index_of (c : string) (cols : list string) : option nat :=
  match cols with
  | [] => None
  | c' :: rest => if String.eqb c c' then Some 0%nat else S <$> index_of c rest
  end.

Definition cell (i : nat) (r : row) : value := default VNull (r !! i).

(** Two rows collide on the primary key when both hold the same non-NULL
    value there (a column declared [text primary key] accepts NULLs, and
    NULLs never collide). *)
Definition same_key (pk : option nat) (r1 r2 : row) : bool :=
  match pk with
  | None => false
  | Some i => match cell i r1 with
              | VNull => false
              | v => value_eqb v (cell i r2)
              end
  end.

(** REPLACE: the rows the new one collides with are deleted, then the new
    row is inserted (with a fresh, largest rowid). *)
Definition replace_row (pk : option nat) (r : row) (rs : list row) : list row :=
  filter (fun r' => same_key pk r r' = false) rs ++ [r].

(** LIMIT n, for an n that SQLite reads as an integer: a negative n is no
    limit at all. *)
Definition limit_rows (n : Z) (rs : list row) : list row :=
  if n <? 0 then rs else take (Z.to_nat n) rs.

(** SQLite's integers are signed and 64 bits wide. A literal outside this
    range is read as a floating-point number, which LIMIT refuses when the
    statement runs ("datatype mismatch"). *)
Definition is_int64 (n : Z) : bool :=
  (- 2 ^ 63 <=? n) && (n <? 2 ^ 63).

(** ORDER BY: the rows come out sorted, and rows that tie keep the order of
    the scan, which is the order of their rowids. [R x y] reads "x may stand
    before y". *)
Section StableSort.
Context {A : Type} (R : A -> A -> Prop) `{!forall x y, Decision (R x y)}.

Fixpoint insert_sorted (x : A) (l : list A) : list A :=
  match l with
  | [] => [x]
  | y :: l' => if decide (R x y) then x :: y :: l' else y :: insert_sorted x l'
  end.

Definition stable_sort (l : list A) : list A := foldr insert_sorted [] l.

End StableSort.

Section Exec.
Context {sqlite : Builtins}.

(** [r1] may stand before [r2] under ORDER BY fn(col) DESC. *)
Definition desc_by (i : nat) (r1 r2 : row) : Prop :=
  value_leb (datetime (cell i r2)) (datetime (cell i r1)) = true.

#[local] Instance desc_by_dec i r1 r2 : Decision (desc_by i r1 r2).
Proof. unfold desc_by. apply _. Defined.

Definition order_desc (i : nat) (rs : list row) : list row :=
  stable_sort (desc_by i) rs.

Definition exec_statement (st : statement) (params : list value) (d : database)
  : outcome cursor * database :=
  match st with
  | DropTableIfExists t => (Return no_rows, delete t d)
  | CreateTable t cols =>
      match d !! t with
      | Some _ => (Raise (OperationalError (TableAlreadyExists t)), d)
      | None =>
          (Return no_rows,
           <[t := Table (col_name <$> cols) (find_primary_key cols) []]> d)
      end
  | DeleteFrom t =>
      match d !! t with
      | None => (Raise (OperationalError (NoSuchTable t)), d)
      | Some tb =>
          (Return no_rows, <[t := Table (columns tb) (primary_key tb) []]> d)
      end
  | ReplaceInto t n =>
      match d !! t with
      | None => (Raise (OperationalError (NoSuchTable t)), d)
      | Some tb =>
          if negb (n =? length (columns tb))%nat
          then (Raise (OperationalError WrongNumberOfValues), d)
          else if negb (n =? length params)%nat
          then (Raise (ProgrammingError WrongNumberOfBindings), d)
          else (Return no_rows,
                <[t := Table (columns tb) (primary_key tb)
                             (replace_row (primary_key tb) params (rows tb))]> d)
      end
  | SelectAll t =>
      match d !! t with
      | None => (Raise (OperationalError (NoSuchTable t)), d)
      | Some tb => (Return (Cursor (columns tb) (rows tb)), d)
      end
  | SelectAllOrderDescLimit t fn col n =>
      match d !! t with
      | None => (Raise (OperationalError (NoSuchTable t)), d)
      | Some tb =>
          if negb (String.eqb fn "datetime")
          then (Raise (OperationalError (NoSuchFunction fn)), d)
          else match index_of col (columns tb) with
               | None => (Raise (OperationalError (NoSuchColumn col)), d)
               | Some i =>
                   if is_int64 n
                   then (Return (Cursor (columns tb)
                                        (limit_rows n (order_desc i (rows tb)))), d)
                   else (Raise (IntegrityError DatatypeMismatch), d)
               end
      end
  end.

(** [conn.execute(sql, params)] on the database the connection is attached
    to: text that does not parse is a syntax error and changes nothing. *)
Definition execute (q : sql) (params : list value) : M database cursor :=
  fun d => match parse q with
           | None => (Raise (OperationalError SyntaxError), d)
           | Some st => exec_statement st params d
           end.

End Exec.

End Sqlite.
Export Sqlite.

(* ===================================================================== *)
(** * CrawlerNodeStorage                                                  *)
(* ===================================================================== *)

Module Storage.

(** The [maya] package (its [MayaDT] and the three conversions the store
    calls) is not code of this repository: it is taken as given.
    [from_rfc3339] answers [None] where the package raises. *)
Class Maya := {
  MayaDT : Type;
  rfc3339 : MayaDT -> string;
  from_rfc3339 : string -> option MayaDT;
  rfc2822 : MayaDT -> string;
}.

(** What a storage object holds: the database its connection [db_conn] is
    attached to, and the fields of its base classes (certificates and the
    like), whose layout is the base classes' business. *)
Record store (F : Type) := Store {
  db : database;
  fields : F;
}.
Arguments Store {F} db fields.
Arguments db {F} s.
Arguments fields {F} s.

(** The base class, [nucypher.config.storages.SQLiteForgetfulNodeStorage],
    is not code of this repository: its table names and the two methods the
    subclass calls through [super()] are taken as given. *)
Class SQLiteForgetfulNodeStorage := {
  base_fields : Type;
  NODE_DB_NAME : string;
  SQLiteForgetfulNodeStorage_STATE_DB_NAME : string;
  TEACHER_DB_NAME : string;
  super_init_db_tables : M (store base_fields) unit;
  super_clear : bool -> bool -> M (store base_fields) unit;
}.

Definition STATE_DB_NAME : string := "fleet_state".

(** A statement run on [self.db_conn]. *)
Definition db_conn_execute {sqlite : Builtins} {F} (q : sql) (params : list value)
  : M (store F) cursor :=
  fun s => match execute q params (db s) with
           | (r, d) => (r, Store d (fields s))
           end.

(** [with self.db_conn: body]: commit when the body returns, roll the
    database back and re-raise when it raises. *)
Definition with_db_conn {F A} (body : M (store F) A) : M (store F) A :=
  fun s => match body s with
           | (Return a, s') => (Return a, s')
           | (Raise e, s') => (Raise e, Store (db s) (fields s'))
           end.

(** A fleet state as the crawler hands it over; the four texts are what
    [FleetStateTracker.abridged_state_details] reads off it. *)
Record fleet_state {maya : Maya} := FleetState {
  nickname : string;
  symbol : string;
  color_hex : string;
  color_name : string;
  updated : MayaDT;
}.

(** The columns [init_db_tables] gives the state table. *)
Definition state_columns : list string :=
  ["nickname"; "symbol"; "color_hex"; "color_name"; "updated"].

Section Methods.
Context {sqlite : Builtins} {maya : Maya} {base : SQLiteForgetfulNodeStorage}.

Abbreviation storage := (store base_fields).

Definition init_db_tables : M storage unit :=
  do_ with_db_conn (
        (* ensure table is empty *)
        do_ db_conn_execute [K DROP; K TABLE; K IF; K EXISTS; Id STATE_DB_NAME] [];
        (* create fresh new state table *)
        do_ db_conn_execute
              [K CREATE; K TABLE; Id STATE_DB_NAME; LParen;
               Id "nickname"; Id "text"; K PRIMARY; K KEY; Comma;
               Id "symbol"; Id "text"; Comma;
               Id "color_hex"; Id "text"; Comma;
               Id "color_name"; Id "text"; Comma;
               Id "updated"; Id "text"; RParen] [];
        ret tt);
  super_init_db_tables.

Definition clear (metadata certificates : bool) : M storage unit :=
  do_ (if metadata
       then with_db_conn (
              do_ db_conn_execute [K DELETE; Id "FORM"; Id STATE_DB_NAME] [];
              ret tt)
       else ret tt);
  super_clear metadata certificates.

Definition db_row (state : fleet_state) : row :=
  [VText (nickname state); VText (symbol state); VText (color_hex state);
   VText (color_name state); VText (rfc3339 (updated state))].

Definition __write_state_metadata (state : fleet_state) : M storage unit :=
  with_db_conn (
    do_ db_conn_execute
          [K REPLACE; K INTO; Id STATE_DB_NAME; K VALUES; LParen;
           QMark; Comma; QMark; Comma; QMark; Comma; QMark; Comma; QMark; RParen]
          (db_row state);
    ret tt).

Definition store_state_metadata (state : fleet_state) : M storage unit :=
  __write_state_metadata state.

End Methods.

(** ** Vocabulary for the properties of the store *)

(** The rows of the fleet-state table (none when the table is missing). *)
Definition state_rows {F} (s : store F) : list row :=
  match db s !! STATE_DB_NAME with
  | Some tb => rows tb
  | None => []
  end.

(** The rows that carry nickname [n], and the others. *)
Definition rows_of_nickname (n : string) (rs : list row) : list row :=
  filter (fun r => cell 0 r = VText n) rs.

Definition rows_of_other_nicknames (n : string) (rs : list row) : list row :=
  filter (fun r => cell 0 r <> VText n) rs.

(** The fleet-state table is there, as [init_db_tables] creates it. *)
Definition has_state_table {F} (s : store F) : Prop :=
  exists tb, db s !! STATE_DB_NAME = Some tb /\
             columns tb = state_columns /\ primary_key tb = Some 0%nat.

(** ** Connections opened per call *)

Inductive event :=
| Connected (conn : nat) (path : string)
| Executed (conn : nat) (q : sql)
| Closed (conn : nat).

(** The process as the two readers see it: the database files, the paths
    that cannot be opened, the connections open right now (each attached to
    a path), the next connection to be handed out, and what happened so far.
    Paths name files; the pseudo-path [:memory:], which gives every
    connection a database of its own, is left out. *)
Record world := World {
  files : gmap string database;
  unopenable : gset string;
  connections : gmap nat string;
  next_conn : nat;
  trace : list event;
}.

Definition sqlite3_connect (path : string) : M world nat :=
  fun w =>
    if decide (path ∈ unopenable w)
    then (Raise (OperationalError (UnableToOpen path)), w)
    else (Return (next_conn w),
          World (files w) (unopenable w)
                (<[next_conn w := path]> (connections w))
                (S (next_conn w))
                (trace w ++ [Connected (next_conn w) path])).

Definition conn_execute {sqlite : Builtins} (conn : nat) (q : sql) (params : list value)
  : M world cursor :=
  fun w =>
    match connections w !! conn with
    | None => (Raise (ProgrammingError ClosedDatabase), w)
    | Some path =>
        match execute q params (default ∅ (files w !! path)) with
        | (r, d) =>
            (r, World (<[path := d]> (files w)) (unopenable w) (connections w)
                      (next_conn w) (trace w ++ [Executed conn q]))
        end
    end.

Definition conn_close (conn : nat) : M world unit :=
  fun w =>
    (Return tt,
     World (files w) (unopenable w) (delete conn (connections w))
           (next_conn w) (trace w ++ [Closed conn])).

(** The storage object as the readers use it. *)
Record crawler_node_storage := CrawlerNodeStorage {
  _db_filepath : string;
  db_conn : nat;
}.

Abbreviation dict := (gmap string value).

(** [for idx, value in enumerate(row)] *)
Definition enumerate {A} (l : list A) : list (nat * A) :=
  imap (fun idx x => (idx, x)) l.

Definition subscript {A} (l : list A) (i : nat) : outcome A :=
  match l !! i with
  | Some x => Return x
  | None => Raise IndexError
  end.

Section Readers.
Context {sqlite : Builtins} {maya : Maya} {base : SQLiteForgetfulNodeStorage}.

Definition node_info_of (column_names : list string) (row : row) : outcome dict :=
  fold_each (enumerate row) ∅ (fun node_info iv =>
    match subscript column_names (fst iv), subscript row (fst iv) with
    | Return c, Return v => Return (<[c := v]> node_info)
    | Raise e, _ => Raise e
    | _, Raise e => Raise e
    end).

Definition get_known_nodes_metadata (self : crawler_node_storage)
  : M world (gmap value dict) :=
  do db_conn <- sqlite3_connect (_db_filepath self);
  try_finally
    (do result <- conn_execute db_conn [K SELECT; Star; K FROM; Id NODE_DB_NAME] [];
     let column_names := description result in
     lift (fold_each (fetched result) ∅ (fun known_nodes row =>
       match subscript row 0 with
       | Raise e => Raise e
       | Return staker_address =>
           match node_info_of column_names row with
           | Raise e => Raise e
           | Return node_info =>
               Return (<[staker_address := node_info]> known_nodes)
           end
       end)))
    (conn_close db_conn).

(** [MayaDT.from_rfc3339(text).rfc2822()]; what [maya] cannot read as a
    time, a NULL cell included, makes it raise its [ParserError], which is a
    [ValueError]. *)
Definition rfc3339_to_rfc2822 (v : value) : outcome value :=
  match v with
  | VText s => match from_rfc3339 s with
               | Some t => Return (VText (rfc2822 t))
               | None => Raise ValueError
               end
  | _ => Raise ValueError
  end.

Definition state_info_of (column_names : list string) (row : row) : outcome dict :=
  fold_each (enumerate row) ∅ (fun state_info iv =>
    match subscript column_names (fst iv) with
    | Raise e => Raise e
    | Return column_name =>
        if String.eqb column_name "updated"
        then match subscript row (fst iv) with
             | Raise e => Raise e
             | Return v =>
                 match rfc3339_to_rfc2822 v with
                 | Raise e => Raise e
                 | Return v' => Return (<[column_name := v']> state_info)
                 end
             end
        else match subscript row (fst iv) with
             | Raise e => Raise e
             | Return v => Return (<[column_name := v]> state_info)
             end
    end).

Definition get_previous_states_metadata (self : crawler_node_storage) (limit : Z)
  : M world (list dict) :=
  do db_conn <- sqlite3_connect (_db_filepath self);
  try_finally
    (do result <- conn_execute db_conn
                    [K SELECT; Star; K FROM; Id SQLiteForgetfulNodeStorage_STATE_DB_NAME;
                     K ORDER; K BY; Id "datetime"; LParen; Id "updated"; RParen;
                     K DESC; K LIMIT; Num limit] [];
     let column_names := description result in
     lift (fold_each (fetched result) [] (fun states_dict_list row =>
       match state_info_of column_names row with
       | Raise e => Raise e
       | Return state_info => Return (states_dict_list ++ [state_info])
       end)))
    (conn_close db_conn).

End Readers.

(** ** Vocabulary for the properties of the readers *)

(** Connections are numbered as they are handed out: those open are older
    than the next one. *)
Definition wf_world (w : world) : Prop :=
  forall c, is_Some (connections w !! c) -> (c < next_conn w)%nat.

(** What a call that keeps to a connection of its own does to the process:
    where the file cannot be opened, [sqlite3.connect] raises and nothing
    happened; otherwise the call was handed a connection [c] that was not
    open before, ran its one statement on [c], closed [c], and left open
    exactly the connections that were open before it. *)
Definition own_connection {A} (path : string) (call : M world A) (w : world) : Prop :=
  let c := next_conn w in
  if decide (path ∈ unopenable w)
  then call w = (Raise (OperationalError (UnableToOpen path)), w)
  else connections w !! c = None /\
       connections (snd (call w)) = connections w /\
       exists q, trace (snd (call w))
                 = trace w ++ [Connected c path; Executed c q; Closed c].

(** Every row of the table converts to a record (its [updated] is text
    that [maya] reads as RFC 3339). *)
Definition rows_convert {maya : Maya} (tb : table) : Prop :=
  Forall (fun r => is_return (state_info_of (columns tb) r) = true) (rows tb).

(** The record of a row: every column name with the row's value in that
    column. *)
Definition record_of (column_names : list string) (r : row) : dict :=
  list_to_map (zip column_names r).

(** The rows of a table are as wide as the table. *)
Definition rows_fit (tb : table) : Prop :=
  Forall (fun r => length r = length (columns tb)) (rows tb).

(** What a reader gets back for a state: its four texts, and the time of
    its update as RFC 2822 text. *)
Definition state_details {maya : Maya} (st : fleet_state) : dict :=
  <["updated" := VText (rfc2822 (updated st))]>
  (<["color_name" := VText (color_name st)]>
  (<["color_hex" := VText (color_hex st)]>
  (<["symbol" := VText (symbol st)]>
  (<["nickname" := VText (nickname st)]> ∅)))).

(** The limit does not cut a table of [n] rows short. *)
Definition limit_covers (limit : Z) (n : nat) : Prop :=
  limit < 0 \/ Z.of_nat n <= limit.

(** [maya] reads the RFC 3339 text it wrote for the state's update time
    back as that time. *)
Definition reads_back {maya : Maya} (st : fleet_state) : Prop :=
  from_rfc3339 (rfc3339 (updated st)) = Some (updated st).

(** [whole_second] tells the second an instant falls in. SQLite's
    [datetime()] keeps the whole second of the text [maya] writes: on the
    update times of the states [sts], it orders the texts as [whole_second]
    orders the times. *)
Definition datetime_keeps_seconds {sqlite : Builtins} {maya : Maya}
    (whole_second : MayaDT -> Z) (sts : list fleet_state) : Prop :=
  forall a b, a ∈ sts -> b ∈ sts ->
    (value_leb (datetime (VText (rfc3339 (updated a))))
               (datetime (VText (rfc3339 (updated b)))) = true
     <-> whole_second (updated a) <= whole_second (updated b)).

End Storage.
Export Storage.

(* ===================================================================== *)
(** * CrawlerDBClient                                                     *)
(* ===================================================================== *)

Module Influx.

(** ** [datetime] and [timedelta] *)

(** A naive [datetime]; year, month and day are kept as the proleptic
    Gregorian ordinal of the date (1 is 0001-01-01). *)
Record datetime_t := Datetime {
  toordinal : Z;
  hour : Z;
  minute : Z;
  second : Z;
  microsecond : Z;
}.

Record timedelta_t := Timedelta {
  td_days : Z;
  td_seconds : Z;
  td_microseconds : Z;
}.

(** The ordinal of 9999-12-31. *)
Definition MAXORDINAL : Z := 3652059.

Definition us_per_day : Z := 86400000000.

(** [timedelta(days=n)] *)
Definition timedelta (days : Z) : outcome timedelta_t :=
  if Z.abs days <=? 999999999
  then Return (Timedelta days 0 0)
  else Raise OverflowError.

Definition time_of_day (dt : datetime_t) : Z :=
  ((hour dt * 60 + minute dt) * 60 + second dt) * 1000000 + microsecond dt.

(** [dt + td]: "result out of range" outside the years 1..9999. *)
Definition datetime_add (dt : datetime_t) (td : timedelta_t) : outcome datetime_t :=
  let us := time_of_day dt + td_seconds td * 1000000 + td_microseconds td in
  let days := toordinal dt + td_days td + us / us_per_day in
  let rest := us mod us_per_day in
  if (0 <? days) && (days <=? MAXORDINAL)
  then Return (Datetime days (rest / 3600000000) ((rest / 60000000) mod 60)
                        ((rest / 1000000) mod 60) (rest mod 1000000))
  else Raise OverflowError.

(** [dt - td] is [dt + (-td)]. *)
Definition datetime_sub (dt : datetime_t) (td : timedelta_t) : outcome datetime_t :=
  datetime_add dt (Timedelta (- td_days td) (- td_seconds td) (- td_microseconds td)).

(** The instant a UTC datetime names, in microseconds; this is what the
    RFC 3339 text written into a query denotes ([maya]'s formatting of it
    and InfluxDB's reading of it are taken to be exact). *)
Definition timestamp (dt : datetime_t) : Z :=
  toordinal dt * us_per_day + time_of_day dt.

(** The UTC calendar day an instant falls on. *)
Definition day_of (t : Z) : Z := t / us_per_day.

(** ** The measurement and the two queries *)

(** One point of [moe_network_info]: its time, its only tag and the field
    the two queries read. *)
Record point := Point {
  time : Z;
  staker_address : string;
  locked_stake : float;
}.

(** A value of a result row as Python sees it. *)
Inductive number :=
| PyNone
| PyInt (n : Z)
| PyFloat (x : float).

(** [if v:] *)
Definition truthy (v : number) : bool :=
  match v with
  | PyNone => false
  | PyInt n => negb (n =? 0)
  | PyFloat x => negb (PrimFloat.eqb x 0%float)
  end.

Inductive aggregate :=
| SUM_locked_stake
| COUNT_staker_address.

(** [SELECT <aggregate> FROM (SELECT staker_address, LAST(locked_stake)
    FROM moe_network_info WHERE time >= time_ge AND time < time_lt
    GROUP BY staker_address, time(1d)) GROUP BY time(1d)], as the server
    reads it: the two queries differ in the aggregate and share the rest. *)
Record influxql := Query {
  select : aggregate;
  time_ge : Z;
  time_lt : Z;
}.

(** ** InfluxQL text *)

(** The text of a query, word by word. A quoted time is kept as the instant
    it names ([QInstant]), [1d] as [QDuration 1 "d"]. *)
Inductive influx_token :=
| QWord (w : string)
| QOpen
| QClose
| QComma
| QGe
| QLt
| QInstant (t : Z)
| QDuration (n : Z) (unit : string).

#[global] Instance influx_token_eq_dec : EqDecision influx_token.
Proof. solve_decision. Defined.

Definition influx_text := list influx_token.

(** A column of a SELECT clause: a tag or a field by its name, or a
    function of a field, under its alias when it has one. *)
Inductive selected :=
| Column (name : string)
| Call (fn field : string) (alias : option string).

#[global] Instance selected_eq_dec : EqDecision selected.
Proof. solve_decision. Defined.

Definition expect (t : influx_token) (ts : influx_text) : option influx_text :=
  match ts with
  | t' :: rest => if decide (t = t') then Some rest else None
  | [] => None
  end.

Definition a_word (ts : influx_text) : option (string * influx_text) :=
  match ts with
  | QWord w :: rest => Some (w, rest)
  | _ => None
  end.

Definition an_instant (ts : influx_text) : option (Z * influx_text) :=
  match ts with
  | QInstant t :: rest => Some (t, rest)
  | _ => None
  end.

(** [column , column , ... FROM] *)
Fixpoint parse_selected (ts : influx_text) : option (list selected * influx_text) :=
  match ts with
  | QWord fn :: QOpen :: QWord field :: QClose :: rest =>
      match rest with
      | QComma :: rest =>
          prod_map (cons (Call fn field None)) id <$> parse_selected rest
      | QWord w :: rest =>
          if String.eqb w "FROM" then Some ([Call fn field None], rest)
          else if String.eqb w "AS"
          then match rest with
               | QWord alias :: QComma :: rest =>
                   prod_map (cons (Call fn field (Some alias))) id
                   <$> parse_selected rest
               | QWord alias :: QWord w' :: rest =>
                   if String.eqb w' "FROM"
                   then Some ([Call fn field (Some alias)], rest)
                   else None
               | _ => None
               end
          else None
      | _ => None
      end
  | QWord name :: QComma :: rest =>
      prod_map (cons (Column name)) id <$> parse_selected rest
  | QWord name :: QWord w :: rest =>
      if String.eqb w "FROM" then Some ([Column name], rest) else None
  | _ => None
  end.

(** [GROUP BY] ... [time(1d)] *)
Definition expect_time_1d (ts : influx_text) : option influx_text :=
  ts ← expect (QWord "time") ts;
  ts ← expect QOpen ts;
  ts ← expect (QDuration 1 "d") ts;
  expect QClose ts.

(** Which of its queries the model reads in an outer function over the
    columns of the inner SELECT: the inner SELECT keeps, per staker and day,
    [LAST(locked_stake)]; SUM is taken over that column, under the name the
    inner SELECT gives it ([last] unless it has an alias); COUNT is taken
    over the [staker_address] the inner SELECT lists. *)
Definition the_call (c : selected) : option (string * string * option string) :=
  match c with
  | Call fn field alias => Some (fn, field, alias)
  | Column _ => None
  end.

Definition read_aggregate (fn arg : string) (columns : list selected)
  : option aggregate :=
  match omap the_call columns with
  | [(selector, field, alias)] =>
      if negb (String.eqb selector "LAST" && String.eqb field "locked_stake")
      then None
      else if String.eqb fn "SUM" && String.eqb arg (default "last" alias)
      then Some SUM_locked_stake
      else if String.eqb fn "COUNT" && String.eqb arg "staker_address"
              && bool_decide (Column "staker_address" ∈ columns)
      then Some COUNT_staker_address
      else None
  | _ => None
  end.

(** [SELECT fn(arg) FROM (SELECT columns FROM moe_network_info
    WHERE time >= 'b' AND time < 'e' GROUP BY staker_address, time(1d))
    GROUP BY time(1d)]; any other text is refused. *)
Definition parse_influxql (ts : influx_text) : option influxql :=
  ts ← expect (QWord "SELECT") ts;
  '(fn, ts) ← a_word ts;
  ts ← expect QOpen ts;
  '(arg, ts) ← a_word ts;
  ts ← expect QClose ts;
  ts ← expect (QWord "FROM") ts;
  ts ← expect QOpen ts;
  ts ← expect (QWord "SELECT") ts;
  '(columns, ts) ← parse_selected ts;
  ts ← expect (QWord "moe_network_info") ts;
  ts ← expect (QWord "WHERE") ts;
  ts ← expect (QWord "time") ts;
  ts ← expect QGe ts;
  '(b, ts) ← an_instant ts;
  ts ← expect (QWord "AND") ts;
  ts ← expect (QWord "time") ts;
  ts ← expect QLt ts;
  '(e, ts) ← an_instant ts;
  ts ← expect (QWord "GROUP") ts;
  ts ← expect (QWord "BY") ts;
  ts ← expect (QWord "staker_address") ts;
  ts ← expect QComma ts;
  ts ← expect_time_1d ts;
  ts ← expect QClose ts;
  ts ← expect (QWord "GROUP") ts;
  ts ← expect (QWord "BY") ts;
  ts ← expect_time_1d ts;
  match ts with
  | [] => a ← read_aggregate fn arg columns; Some (Query a b e)
  | _ => None
  end.

(** InfluxDB is not code of this repository either. What it answers to
    the query above is modelled on InfluxQL's documented semantics:
    buckets of one day aligned on 00:00 UTC; within a bucket the points in
    the WHERE range are grouped by staker and LAST keeps each staker's
    latest point; SUM adds these values and is null for a bucket without
    any, COUNT counts them and is 0 for a bucket without any. *)

Definition in_range (q : influxql) (p : point) : Prop :=
  time_ge q <= time p < time_lt q.

(** LAST: the latest point, and among points of one time the one written
    last. *)
Definition last_point (ps : list point) : option point :=
  fold_left (fun best p =>
               match best with
               | None => Some p
               | Some b => if time b <=? time p then Some p else Some b
               end) ps None.

(** LAST(locked_stake) GROUP BY staker_address, over the points of one
    bucket. *)
Definition last_per_staker (ps : list point) : list float :=
  omap (fun s => locked_stake <$>
                 last_point (filter (fun p => staker_address p = s) ps))
       (remove_dups (staker_address <$> ps)).

Definition sum_values (xs : list float) : number :=
  match xs with
  | [] => PyNone
  | x :: rest => PyFloat (fold_left PrimFloat.add rest x)
  end.

Definition count_values (xs : list float) : number :=
  PyInt (Z.of_nat (length xs)).

Definition apply_aggregate (a : aggregate) (xs : list float) : number :=
  match a with
  | SUM_locked_stake => sum_values xs
  | COUNT_staker_address => count_values xs
  end.

(** The days whose bucket meets the WHERE range. *)
Definition buckets (q : influxql) : list Z :=
  if time_ge q <? time_lt q
  then (fun i => day_of (time_ge q) + Z.of_nat i) <$>
       seq 0 (Z.to_nat (day_of (time_lt q - 1) - day_of (time_ge q) + 1))
  else [].

Definition bucket_points (q : influxql) (series : list point) (d : Z) : list point :=
  filter (fun p => in_range q p ∧ day_of (time p) = d) series.

(** The rows of [client.query(...).get_points()]: the bucket's start as
    [r['time']] and the aggregate as [r['sum']] or [r['count']]. *)
Definition evaluate (series : list point) (q : influxql) : list (Z * number) :=
  (fun d => (d * us_per_day,
             apply_aggregate (select q) (last_per_staker (bucket_points q series d))))
  <$> buckets q.

(** The InfluxDB client: the stored series, and the queries the server
    was sent so far. *)
Record influxdb := InfluxDBClient {
  series : list point;
  issued : list influxql;
}.

(** [list(self._client.query(...).get_points())]; the server is taken to
    answer (a failing network is not part of the model), and text it cannot
    read comes back as an error of the client. *)
Definition client_query (text : influx_text) : M influxdb (list (Z * number)) :=
  fun c => match parse_influxql text with
           | Some q => (Return (evaluate (series c) q),
                        InfluxDBClient (series c) (issued c ++ [q]))
           | None => (Raise InfluxDBClientError, c)
           end.

(** ** [OrderedDict] *)

(** Keys are the instants of the [datetime] objects the readers build from
    [r['time']]. *)

Definition ordered_dict := list (Z * number).

Fixpoint odict_set (k : Z) (v : number) (d : ordered_dict) : ordered_dict :=
  match d with
  | [] => [(k, v)]
  | (k', v') :: rest =>
      if k' =? k then (k, v) :: rest else (k', v') :: odict_set k v rest
  end.

Fixpoint odict_get (k : Z) (d : ordered_dict) : option number :=
  match d with
  | [] => None
  | (k', v') :: rest => if k' =? k then Some v' else odict_get k rest
  end.

(** ** The two readers; [today] is what [datetime.utcnow()] answered *)

Definition get_historical_locked_tokens_over_range (today : datetime_t) (days : Z)
  : M influxdb ordered_dict :=
  let range_end := Datetime (toordinal today) 0 0 0 0 in
  do delta <- lift (timedelta (days - 1));
  do range_begin <- lift (datetime_sub range_end delta);
  do one_day <- lift (timedelta 1);
  do range_stop <- lift (datetime_add range_end one_day);
  do results <- client_query
                  [QWord "SELECT"; QWord "SUM"; QOpen; QWord "locked_stake"; QClose;
                   QWord "FROM"; QOpen;
                   QWord "SELECT"; QWord "staker_address"; QComma;
                   QWord "current_period"; QComma;
                   QWord "LAST"; QOpen; QWord "locked_stake"; QClose;
                   QWord "AS"; QWord "locked_stake";
                   QWord "FROM"; QWord "moe_network_info";
                   QWord "WHERE"; QWord "time"; QGe; QInstant (timestamp range_begin);
                   QWord "AND";
                   QWord "time"; QLt; QInstant (timestamp range_stop);
                   QWord "GROUP"; QWord "BY"; QWord "staker_address"; QComma;
                   QWord "time"; QOpen; QDuration 1 "d"; QClose;
                   QClose;
                   QWord "GROUP"; QWord "BY"; QWord "time"; QOpen; QDuration 1 "d"; QClose];
  ret (fold_left (fun locked_tokens_dict r =>
                    let locked_stake := snd r in
                    if truthy locked_stake
                    then odict_set (fst r) locked_stake locked_tokens_dict
                    else locked_tokens_dict)
                 results []).

Definition get_historical_num_stakers_over_range (today : datetime_t) (days : Z)
  : M influxdb ordered_dict :=
  let range_end := Datetime (toordinal today) 0 0 0 0 in
  do delta <- lift (timedelta (days - 1));
  do range_begin <- lift (datetime_sub range_end delta);
  do one_day <- lift (timedelta 1);
  do range_stop <- lift (datetime_add range_end one_day);
  do results <- client_query
                  [QWord "SELECT"; QWord "COUNT"; QOpen; QWord "staker_address"; QClose;
                   QWord "FROM";
                   QOpen;
                   QWord "SELECT"; QWord "staker_address"; QComma;
                   QWord "LAST"; QOpen; QWord "locked_stake"; QClose;
                   QWord "FROM"; QWord "moe_network_info"; QWord "WHERE";
                   QWord "time"; QGe; QInstant (timestamp range_begin); QWord "AND";
                   QWord "time"; QLt; QInstant (timestamp range_stop);
                   QWord "GROUP"; QWord "BY"; QWord "staker_address"; QComma;
                   QWord "time"; QOpen; QDuration 1 "d"; QClose;
                   QClose;
                   QWord "GROUP"; QWord "BY"; QWord "time"; QOpen; QDuration 1 "d"; QClose];
  ret (fold_left (fun num_stakers_dict r =>
                    let locked_stake := snd r in
                    if truthy locked_stake
                    then odict_set (fst r) locked_stake num_stakers_dict
                    else num_stakers_dict)
                 results []).

(** ** Vocabulary for the properties of the two readers *)

(** The samples observed on day [d]. *)
Definition day_points (series : list point) (d : Z) : list point :=
  filter (fun p => day_of (time p) = d) series.

Definition observed (series : list point) (d : Z) : Prop :=
  day_points series d <> [].

(** The sum, across stakers, of each staker's last-observed locked stake
    on day [d]. *)
Definition daily_locked_stake (series : list point) (d : Z) : number :=
  sum_values (last_per_staker (day_points series d)).

(** The number of stakers observed on day [d]. *)
Definition daily_stakers (series : list point) (d : Z) : number :=
  count_values (last_per_staker (day_points series d)).

(** One turn of the loop both readers run over the result rows. *)
Definition keep_truthy (dict : ordered_dict) (r : Z * number) : ordered_dict :=
  if truthy (snd r) then odict_set (fst r) (snd r) dict else dict.

(** 00:00 UTC of day [d]. *)
Definition midnight (d : Z) : Z := d * us_per_day.

(** Day [d] is one of the [days] UTC days that end with [today]'s. *)
Definition in_window (today : datetime_t) (days d : Z) : Prop :=
  toordinal today - days < d <= toordinal today.

(** The dates the window needs exist: today and tomorrow, and the first
    day of the window, lie within the years 1..9999. *)
Definition representable (today : datetime_t) (days : Z) : Prop :=
  1 <= toordinal today < MAXORDINAL /\
  1 <= toordinal today - (days - 1) <= MAXORDINAL.

(** The stakers seen on day [d], each once. *)
Definition stakers_seen (series : list point) (d : Z) : list string :=
  remove_dups (staker_address <$> day_points series d).

(** The first day of the window lies before 0001-01-01 or after
    9999-12-31, or tomorrow lies after 9999-12-31. *)
Definition out_of_range (today : datetime_t) (days : Z) : Prop :=
  toordinal today - (days - 1) < 1 \/
  MAXORDINAL < toordinal today - (days - 1) \/
  toordinal today = MAXORDINAL.

(** ** The daily locked stake, in the words of its description *)

(** The samples of staker [s] observed on day [d], in the order they were
    written. *)
Definition samples_of (series : list point) (s : string) (d : Z) : list point :=
  filter (fun p => staker_address p = s ∧ day_of (time p) = d) series.

(** [p] is the last observation among [ps]: no sample is later than [p],
    and of the samples taken at the very time of [p] it is the one written
    last. *)
Definition last_observed (ps : list point) (p : point) : Prop :=
  exists before after,
    ps = before ++ p :: after /\
    Forall (fun q => time q <= time p) before /\
    Forall (fun q => time q < time p) after.

(** [values] are the last-observed locked stakes of day [d], one for each
    staker seen that day. *)
Definition last_observed_stakes (series : list point) (d : Z) (values : list float)
  : Prop :=
  Forall2 (fun s v => exists p, last_observed (samples_of series s d) p /\
                                v = locked_stake p)
          (stakers_seen series d) values.

(** Their sum across stakers, added up in binary64 one staker after the
    other; there is none when there is no staker. *)
Fixpoint add_up (total : float) (values : list float) : float :=
  match values with
  | [] => total
  | v :: rest => add_up (total + v)%float rest
  end.

Definition total_of (values : list float) : option float :=
  match values with
  | [] => None
  | v :: rest => Some (add_up v rest)
  end.

End Influx.
Export Influx.

(* ===================================================================== *)
(** * Crawler                                                             *)
(* ===================================================================== *)

Module Crawler.

(** Modelled from the spec: [monitor/crawler.py], the module that defines
    [Crawler], is missing from the sources at hand (only its tests are
    there). What follows is the lifecycle of section 4.4 of the
    specification, step by step. *)

Inductive lifecycle :=
| STOPPED
| RUNNING.

Inductive task :=
| LearningTask
| MetricsTask.

(** The time-series store as [start()] meets it. *)
Record time_series_store := TimeSeriesStore {
  reachable : bool;
  databases : list string;
  retention_policies : list string;
}.

Record crawler := CrawlerState {
  state : lifecycle;
  client_opened : bool;
  store_initialized : bool;
  tasks : list task;
  time_series : time_series_store;
}.

Definition with_state (st : lifecycle) (c : crawler) : crawler :=
  CrawlerState st (client_opened c) (store_initialized c) (tasks c) (time_series c).

Definition with_tasks (ts : list task) (c : crawler) : crawler :=
  CrawlerState (state c) (client_opened c) (store_initialized c) ts (time_series c).

Definition is_running (c : crawler) : bool :=
  match state c with
  | RUNNING => true
  | STOPPED => false
  end.

(** Modelled from the spec: "Connect the TimeSeriesClient ... If the
    underlying store is unreachable, fail with ConnectionError". *)
Definition connect_time_series : M crawler unit :=
  fun c =>
    if reachable (time_series c)
    then (Return tt,
          CrawlerState (state c) true (store_initialized c) (tasks c) (time_series c))
    else (Raise ConnectionError, c).

(** Modelled from the spec: "creates it and a retention policy if absent;
    no-op (and does not recreate the retention policy) if it already
    exists". *)
Definition ensureDatabase (name : string) : M crawler unit :=
  fun c =>
    let ts := time_series c in
    if bool_decide (name ∈ databases ts)
    then (Return tt, c)
    else (Return tt,
          CrawlerState (state c) (client_opened c) (store_initialized c) (tasks c)
            (TimeSeriesStore (reachable ts) (databases ts ++ [name])
                             (retention_policies ts ++ [name]))).

(** Modelled from the spec: "Initialize NodeMetadataStore if not already
    initialized". *)
Definition initialize_store : M crawler unit :=
  fun c =>
    (Return tt,
     CrawlerState (state c) (client_opened c) true (tasks c) (time_series c)).

(** Modelled from the spec: the five steps of [start()];
    [BLOCKCHAIN_DB_NAME] is the name of the crawler's time-series database. *)
Definition start (BLOCKCHAIN_DB_NAME : string) : M crawler unit :=
  fun c =>
    match state c with
    | RUNNING => (Return tt, c)
    | STOPPED =>
        (do_ connect_time_series;
         do_ ensureDatabase BLOCKCHAIN_DB_NAME;
         do_ initialize_store;
         do_ (fun c' => (Return tt, with_tasks [LearningTask; MetricsTask] c'));
         fun c' => (Return tt, with_state RUNNING c')) c
    end.

End Crawler.

(* ===================================================================== *)
(** * Concrete collaborators and inputs                                   *)
(* ===================================================================== *)

(** Stand-ins for the collaborators the development takes as given, and a
    few concrete stores, to run the definitions on. *)
Module Sample.

(** [datetime()] on text that starts with YYYY-MM-DDTHH:MM:SS: the date, a
    blank, the time to the second; NULL for anything shorter. *)
Definition iso_datetime (v : value) : value :=
  match v with
  | VText s =>
      if (19 <=? String.length s)%nat
      then VText (String.substring 0 10 s ++ " " ++ String.substring 11 8 s)
      else VNull
  | _ => VNull
  end.

Definition sqlite : Builtins := {| datetime := iso_datetime |}.

(** An instant kept as its RFC 3339 text. *)
Definition maya : Maya := {|
  MayaDT := string;
  rfc3339 := fun t => t;
  from_rfc3339 := fun s => if (20 <=? String.length s)%nat then Some s else None;
  rfc2822 := fun t => t;
|}.

Definition create_if_absent (t : string) (cols : list string) (d : database)
  : database :=
  match d !! t with
  | Some _ => d
  | None => <[t := Table cols (Some 0%nat) []]> d
  end.

Definition delete_all (t : string) (d : database) : database :=
  match d !! t with
  | Some tb => <[t := Table (columns tb) (primary_key tb) []]> d
  | None => d
  end.

(** Modelled from the spec: a base class that keeps certificates by
    checksum address beside the database, creates the node and teacher
    tables when they are missing ("only missing structures are created"),
    and whose [clear] has "two independent flags: [metadata] clears
    node/state/teacher rows; [certificates] clears any certificate material
    associated with nodes". *)
Definition base : SQLiteForgetfulNodeStorage := {|
  base_fields := list (string * string);
  NODE_DB_NAME := "node_info";
  SQLiteForgetfulNodeStorage_STATE_DB_NAME := "fleet_state";
  TEACHER_DB_NAME := "teacher";
  super_init_db_tables := fun s =>
    (Return tt,
     Store (create_if_absent "teacher" ["checksum_address"]
              (create_if_absent "node_info"
                 ["staker_address"; "rest_url"; "nickname"; "timestamp"; "last_seen"]
                 (db s)))
           (fields s));
  super_clear := fun metadata certificates s =>
    (Return tt,
     Store (if metadata
            then delete_all "teacher"
                   (delete_all "fleet_state" (delete_all "node_info" (db s)))
            else db s)
           (if certificates then [] else fields s));
|}.

Definition node_row : row :=
  [VText "0xAAA"; VText "https://10.0.0.1:9151"; VText "Cyan Star";
   VText "2019-11-01T12:00:00.0Z"; VText "2019-11-01T12:05:00.0Z"].

Definition state_row : row :=
  [VText "Cyan Star"; VText "*"; VText "00FFFF"; VText "cyan";
   VText "2019-11-01T12:00:00.0Z"].

Definition older_state_row : row :=
  [VText "Red Moon"; VText "%"; VText "4F3D21"; VText "red";
   VText "2019-11-01T11:00:00.0Z"].

(** A store with one node row, two fleet-state rows and a teacher. *)
Definition populated_db : database :=
  <["teacher" := Table ["checksum_address"] (Some 0%nat) [[VText "0xAAA"]]]>
  (<["fleet_state" := Table state_columns (Some 0%nat) [older_state_row; state_row]]>
  (<["node_info" :=
       Table ["staker_address"; "rest_url"; "nickname"; "timestamp"; "last_seen"]
             (Some 0%nat) [node_row]]> ∅)).

Definition populated : store (list (string * string)) :=
  Store populated_db [("0xAAA", "-----BEGIN CERTIFICATE-----")].

Definition the_storage : crawler_node_storage :=
  CrawlerNodeStorage "network-crawler-storage-metadata.sqlite" 0.

(** The process after the storage object was built on that database. *)
Definition populated_world : world :=
  World {["network-crawler-storage-metadata.sqlite" := populated_db]} ∅
        {[0%nat := "network-crawler-storage-metadata.sqlite"]} 1 [].

(** The same process over a database file that holds no table yet. *)
Definition bare_world : world :=
  World {["network-crawler-storage-metadata.sqlite" := ∅]} ∅
        {[0%nat := "network-crawler-storage-metadata.sqlite"]} 1 [].

Definition first_state : @fleet_state maya :=
  @FleetState maya "Cyan Star" "*" "00FFFF" "cyan" "2019-11-01T12:00:00.0Z".

Definition updated_state : @fleet_state maya :=
  @FleetState maya "Cyan Star" "%" "4F3D21" "red" "2019-11-01T12:05:00.0Z".

(** 2019-11-01, 12:30 UTC. *)
Definition today : datetime_t := Datetime 737364 12 30 0 0.

Definition at_time (day h : Z) : Z := day * us_per_day + h * 3600000000.

(** Two stakers seen on 2019-10-31; on 2019-11-01 one staker seen twice,
    holding nothing locked; nothing seen on 2019-10-30. *)
Definition sample_series : list point :=
  [Point (at_time 737363 9) "0xAAA" 15000%float;
   Point (at_time 737363 10) "0xBBB" 20000%float;
   Point (at_time 737363 21) "0xAAA" 15005%float;
   Point (at_time 737364 8) "0xAAA" 0%float;
   Point (at_time 737364 9) "0xAAA" 0%float].

Definition sample_client : influxdb := InfluxDBClient sample_series [].

Definition unreachable_crawler : Crawler.crawler :=
  Crawler.CrawlerState Crawler.STOPPED false false []
    (Crawler.TimeSeriesStore false [] []).

(** A store whose tables were just created. *)
Definition fresh_db : database :=
  <["teacher" := Table ["checksum_address"] (Some 0%nat) []]>
  (<["fleet_state" := Table state_columns (Some 0%nat) []]>
  (<["node_info" :=
       Table ["staker_address"; "rest_url"; "nickname"; "timestamp"; "last_seen"]
             (Some 0%nat) []]> ∅)).

Definition fresh : store (list (string * string)) := Store fresh_db [].

(** A store on a database file without any table. *)
Definition bare : store (list (string * string)) := Store ∅ [].

Definition other_state : @fleet_state maya :=
  @FleetState maya "Red Moon" "%" "4F3D21" "red" "2019-11-01T11:00:00.0Z".

(** The process after [first_state] was written to the fresh store. *)
Definition written_world : world :=
  World {["network-crawler-storage-metadata.sqlite" :=
            <["fleet_state" := Table state_columns (Some 0%nat) [state_row]]> fresh_db]}
        ∅ {[0%nat := "network-crawler-storage-metadata.sqlite"]} 1 [].

(** A fleet-state row whose [updated] was never filled in. *)
Definition broken_state_row : row :=
  [VText "Gray Fog"; VText "?"; VText "808080"; VText "gray"; VNull].

Definition broken_world : world :=
  World {["network-crawler-storage-metadata.sqlite" :=
            <["fleet_state" :=
                Table state_columns (Some 0%nat) [state_row; broken_state_row]]>
            fresh_db]}
        ∅ {[0%nat := "network-crawler-storage-metadata.sqlite"]} 1 [].

(** 9999-12-31. *)
Definition last_day : datetime_t := Datetime MAXORDINAL 0 0 0 0.

End Sample.

(* ===================================================================== *)
(** * RFC 3339 text, as [maya] writes it and SQLite reads it               *)
(* ===================================================================== *)

(** A concrete [maya]: instants are readings of the UTC clock to the tenth
    of a second, which is what the RFC 3339 text of [maya] keeps of a time.
    Together with [Sample.sqlite] it shows what the ORDER BY of
    [get_previous_states_metadata] sees of an update time. *)
Module Utc.

Record reading := Reading {
  year : Z;
  month : Z;
  day : Z;
  hours : Z;
  minutes : Z;
  seconds : Z;
  tenth : Z;
}.

Definition leap (y : Z) : bool :=
  (y mod 4 =? 0) && (negb (y mod 100 =? 0) || (y mod 400 =? 0)).

Definition month_length (y m : Z) : Z :=
  if m =? 2 then (if leap y then 29 else 28)
  else if bool_decide (m ∈ [4; 6; 9; 11]) then 30
  else 31.

(** A reading of a real calendar day, in a year of four digits. *)
Definition valid (u : reading) : bool :=
  (1000 <=? year u) && (year u <=? 9999)
  && (1 <=? month u) && (month u <=? 12)
  && (1 <=? day u) && (day u <=? month_length (year u) (month u))
  && (0 <=? hours u) && (hours u <? 24)
  && (0 <=? minutes u) && (minutes u <? 60)
  && (0 <=? seconds u) && (seconds u <? 60)
  && (0 <=? tenth u) && (tenth u <? 10).

Definition digit (n : Z) : Ascii.ascii := Ascii.ascii_of_N (Z.to_N (48 + n)).

Definition two_digits (n : Z) : string :=
  String (digit (n / 10)) (String (digit (n mod 10)) "").

Definition four_digits (n : Z) : string :=
  String (digit (n / 1000))
    (String (digit (n / 100 mod 10)) (two_digits (n mod 100))).

Definition date_text (u : reading) : string :=
  four_digits (year u) ++ "-" ++ two_digits (month u) ++ "-" ++ two_digits (day u).

Definition time_text (u : reading) : string :=
  two_digits (hours u) ++ ":" ++ two_digits (minutes u) ++ ":"
  ++ two_digits (seconds u).

(** [MayaDT.rfc3339()]: [strftime("%Y-%m-%dT%H:%M:%S.%f")[:-5] + "Z"], the
    time to the tenth of a second. *)
Definition rfc3339_text (u : reading) : string :=
  date_text u ++ "T" ++ time_text u ++ "." ++ String (digit (tenth u)) "Z".

(** What SQLite's [datetime()] answers: YYYY-MM-DD HH:MM:SS. *)
Definition datetime_text (u : reading) : string :=
  date_text u ++ " " ++ time_text u.

Definition digit_value (c : Ascii.ascii) : option Z :=
  let n := Z.of_N (Ascii.N_of_ascii c) in
  if (48 <=? n) && (n <=? 57) then Some (n - 48) else None.

Definition decimal (cs : list Ascii.ascii) : option Z :=
  foldl (fun acc c => a ← acc; d ← digit_value c; Some (10 * a + d)) (Some 0) cs.

(** [MayaDT.from_rfc3339(text)], on text of the shape [rfc3339()] writes;
    [None] for any other text (the package reads more shapes than this). *)
Definition read (s : string) : option reading :=
  match String.list_ascii_of_string s with
  | [y1; y2; y3; y4; c1; m1; m2; c2; d1; d2; c3; h1; h2; c4; n1; n2; c5;
     s1; s2; c6; f; c7] =>
      if String.eqb (String.string_of_list_ascii [c1; c2; c3; c4; c5; c6; c7])
                    "--T::.Z"
      then y ← decimal [y1; y2; y3; y4];
           m ← decimal [m1; m2];
           d ← decimal [d1; d2];
           h ← decimal [h1; h2];
           n ← decimal [n1; n2];
           s ← decimal [s1; s2];
           f ← decimal [f];
           let u := Reading y m d h n s f in
           if valid u then Some u else None
      else None
  | _ => None
  end.

(** The day of the week, 0 for Saturday (Zeller's congruence). *)
Definition weekday (u : reading) : Z :=
  let y := if month u <? 3 then year u - 1 else year u in
  let m := if month u <? 3 then month u + 12 else month u in
  (day u + 13 * (m + 1) / 5 + y mod 100 + y mod 100 / 4 + y / 100 / 4
   + 5 * (y / 100)) mod 7.

(** [MayaDT.rfc2822()]: the time to the second, as in
    [Fri, 01 Nov 2019 12:00:00 GMT]. *)
Definition rfc2822_text (u : reading) : string :=
  nth (Z.to_nat (weekday u)) ["Sat"; "Sun"; "Mon"; "Tue"; "Wed"; "Thu"; "Fri"] ""
  ++ ", " ++ two_digits (day u) ++ " "
  ++ nth (Z.to_nat (month u - 1))
       ["Jan"; "Feb"; "Mar"; "Apr"; "May"; "Jun";
        "Jul"; "Aug"; "Sep"; "Oct"; "Nov"; "Dec"] ""
  ++ " " ++ four_digits (year u) ++ " " ++ time_text u ++ " GMT".

Definition maya : Maya := {|
  MayaDT := reading;
  rfc3339 := rfc3339_text;
  from_rfc3339 := read;
  rfc2822 := rfc2822_text;
|}.

(** The second a reading falls in, as the number YYYYMMDDhhmmss, and the
    reading itself with its tenth: a later time has the larger number. *)
Definition whole_second (u : reading) : Z :=
  ((((year u * 100 + month u) * 100 + day u) * 100 + hours u) * 100 + minutes u) * 100
  + seconds u.

Definition instant (u : reading) : Z := whole_second u * 10 + tenth u.

(** The digits of a reading's whole second, most significant first. *)
Definition second_digits (u : reading) : list Z :=
  [year u / 1000; year u / 100 mod 10; year u mod 100 / 10; year u mod 100 mod 10;
   month u / 10; month u mod 10;
   day u / 10; day u mod 10;
   hours u / 10; hours u mod 10;
   minutes u / 10; minutes u mod 10;
   seconds u / 10; seconds u mod 10].

Definition is_digit (d : Z) : Prop := 0 <= d < 10.

(** Every field of the reading fits the digits it is printed with. *)
Definition fits (u : reading) : Prop :=
  0 <= year u < 10000 /\ 0 <= month u < 100 /\ 0 <= day u < 100 /\
  0 <= hours u < 100 /\ 0 <= minutes u < 100 /\ 0 <= seconds u < 100.

(** Digit by digit, the first difference decides. *)
Fixpoint lex_compare (l1 l2 : list Z) : comparison :=
  match l1, l2 with
  | x :: l1', y :: l2' =>
      match x ?= y with
      | Eq => lex_compare l1' l2'
      | Lt => Lt
      | Gt => Gt
      end
  | _, _ => Eq
  end.

(** Three states: one updated at 11:00:00.0, then two updated within the
    second of 12:00:00, the first of them at .1 and the second at .9. *)
Definition eleven : @fleet_state maya :=
  @FleetState maya "Gray Fog" "?" "808080" "gray" (Reading 2019 11 1 11 0 0 0).

Definition noon_tenth : @fleet_state maya :=
  @FleetState maya "Cyan Star" "*" "00FFFF" "cyan" (Reading 2019 11 1 12 0 0 1).

Definition noon_nine_tenths : @fleet_state maya :=
  @FleetState maya "Red Moon" "%" "4F3D21" "red" (Reading 2019 11 1 12 0 0 9).

(** The process after the three were written in that order to a fresh
    store. *)
Definition stored : list (@fleet_state maya) :=
  [eleven; noon_tenth; noon_nine_tenths].

Definition stored_db : database :=
  <["fleet_state" := Table state_columns (Some 0%nat) (db_row <$> stored)]>
  Sample.fresh_db.

Definition world : world :=
  World {["network-crawler-storage-metadata.sqlite" := stored_db]}
        ∅ {[0%nat := "network-crawler-storage-metadata.sqlite"]} 1 [].

End Utc.

(* ===================================================================== *)
(** * Facts about the readers                                             *)
(* ===================================================================== *)

Section UtcFacts.

Lemma decimal_lt (l1 l2 : list Z) (acc1 acc2 : Z) :
  length l1 = length l2 -> Forall Utc.is_digit l1 -> Forall Utc.is_digit l2 ->
  acc1 < acc2 ->
  foldl (fun acc d => 10 * acc + d) acc1 l1 < foldl (fun acc d => 10 * acc + d) acc2 l2.
Proof.
  revert l2 acc1 acc2. induction l1 as [|x l1 IH]; intros [|y l2] acc1 acc2 L D1 D2 H;
    try done.
  simpl. inversion D1; inversion D2; subst. apply IH; [by inversion L|done..|].
  unfold Utc.is_digit in *. lia.
Qed.

(** Numbers of as many digits compare as their digits do. *)
Lemma lex_compare_decimal (l1 l2 : list Z) (acc : Z) :
  length l1 = length l2 -> Forall Utc.is_digit l1 -> Forall Utc.is_digit l2 ->
  Utc.lex_compare l1 l2
  = (foldl (fun acc d => 10 * acc + d) acc l1 ?= foldl (fun acc d => 10 * acc + d) acc l2).
Proof.
  revert l2 acc. induction l1 as [|x l1 IH]; intros [|y l2] acc L D1 D2; try done.
  - simpl. by rewrite Z.compare_refl.
  - simpl. inversion D1; inversion D2; subst. injection L as L.
    destruct (Z.compare_spec x y) as [->|lt|gt].
    + by apply IH.
    + symmetry. apply Z.compare_lt_iff. apply decimal_lt; [done..|lia].
    + symmetry. apply Z.compare_gt_iff. apply decimal_lt; [done..|lia].
Qed.

Lemma one_of_ten (a : Z) :
  Utc.is_digit a ->
  a = 0 \/ a = 1 \/ a = 2 \/ a = 3 \/ a = 4 \/ a = 5 \/ a = 6 \/ a = 7 \/ a = 8 \/ a = 9.
Proof. unfold Utc.is_digit. lia. Qed.

Lemma ascii_compare_digit (a b : Z) :
  Utc.is_digit a -> Utc.is_digit b ->
  Ascii.compare (Utc.digit a) (Utc.digit b) = (a ?= b).
Proof.
  intros Ea%one_of_ten Eb%one_of_ten.
  repeat (destruct Ea as [->|Ea]); try subst a;
    repeat (destruct Eb as [->|Eb]); try subst b; reflexivity.
Qed.

Lemma ascii_compare_refl (c : Ascii.ascii) : Ascii.compare c c = Eq.
Proof. unfold Ascii.compare. apply N.compare_refl. Qed.

Lemma digit_value_digit (a : Z) :
  Utc.is_digit a -> Utc.digit_value (Utc.digit a) = Some a.
Proof.
  intros Ea%one_of_ten. repeat (destruct Ea as [->|Ea]); try subst a; reflexivity.
Qed.

Lemma valid_fits (u : Utc.reading) : Utc.valid u = true -> Utc.fits u.
Proof.
  unfold Utc.valid, Utc.fits, Utc.month_length. intros V.
  repeat (apply andb_prop in V as [V ?]).
  destruct (Utc.month u =? 2); [destruct (Utc.leap (Utc.year u))|];
    [| |destruct (bool_decide _)]; lia.
Qed.

Lemma second_digits_are_digits (u : Utc.reading) :
  Utc.fits u -> Forall Utc.is_digit (Utc.second_digits u).
Proof.
  unfold Utc.fits, Utc.second_digits, Utc.is_digit. intros R.
  repeat constructor; Z.div_mod_to_equations; lia.
Qed.

Lemma second_digits_decimal (u : Utc.reading) :
  foldl (fun acc d => 10 * acc + d) 0 (Utc.second_digits u) = Utc.whole_second u.
Proof.
  unfold Utc.second_digits, Utc.whole_second. cbn [foldl].
  Z.div_mod_to_equations. lia.
Qed.

Lemma datetime_text_compare (u1 u2 : Utc.reading) :
  Utc.fits u1 -> Utc.fits u2 ->
  String.compare (Utc.datetime_text u1) (Utc.datetime_text u2)
  = Utc.lex_compare (Utc.second_digits u1) (Utc.second_digits u2).
Proof.
  intros R1 R2.
  pose proof (second_digits_are_digits u1 R1) as D1.
  pose proof (second_digits_are_digits u2 R2) as D2.
  unfold Utc.second_digits in *.
  repeat match goal with H : Forall _ (_ :: _) |- _ =>
    apply Forall_cons in H as [? H] end.
  unfold Utc.datetime_text, Utc.date_text, Utc.time_text, Utc.four_digits,
    Utc.two_digits.
  cbv [String.append]. cbn [String.compare Utc.lex_compare].
  rewrite !ascii_compare_digit by done.
  rewrite !ascii_compare_refl.
  reflexivity.
Qed.

(** What [datetime()] makes of the text [maya] writes: the reading without
    its tenth. *)
Lemma datetime_of_rfc3339_text (u : Utc.reading) :
  Sample.iso_datetime (VText (Utc.rfc3339_text u)) = VText (Utc.datetime_text u).
Proof. reflexivity. Qed.

(** So the texts of two readings are ordered by [datetime()] as their
    whole seconds are. *)
Lemma datetime_orders_by_second (u1 u2 : Utc.reading) :
  Utc.fits u1 -> Utc.fits u2 ->
  value_leb (Sample.iso_datetime (VText (Utc.rfc3339_text u1)))
            (Sample.iso_datetime (VText (Utc.rfc3339_text u2))) = true
  <-> Utc.whole_second u1 <= Utc.whole_second u2.
Proof.
  intros R1 R2. rewrite !datetime_of_rfc3339_text. cbn [value_leb].
  unfold String.leb. rewrite datetime_text_compare by done.
  rewrite (lex_compare_decimal _ _ 0), !second_digits_decimal;
    [|done|by apply second_digits_are_digits..].
  destruct (Z.compare_spec (Utc.whole_second u1) (Utc.whole_second u2)); split;
    (done || lia).
Qed.

(** And [maya] reads the text of a valid reading back as that reading. *)
Lemma read_rfc3339_text (u : Utc.reading) :
  Utc.valid u = true -> Utc.read (Utc.rfc3339_text u) = Some u.
Proof.
  intros V. pose proof (valid_fits u V) as R.
  pose proof (second_digits_are_digits u R) as D.
  assert (Utc.is_digit (Utc.tenth u)) as Dt.
  { unfold Utc.valid in V. repeat (apply andb_prop in V as [V ?]).
    unfold Utc.is_digit. lia. }
  unfold Utc.second_digits in D.
  repeat match goal with H : Forall _ (_ :: _) |- _ =>
    apply Forall_cons in H as [? H] end.
  unfold Utc.read, Utc.rfc3339_text, Utc.date_text, Utc.time_text, Utc.four_digits,
    Utc.two_digits.
  cbv [String.append]. cbn [String.list_ascii_of_string String.string_of_list_ascii].
  change (String.eqb "--T::.Z" "--T::.Z") with true. cbv iota.
  unfold Utc.decimal. cbn [foldl]. cbn [mbind option_bind].
  rewrite !digit_value_digit by done. cbn [mbind option_bind].
  replace (Utc.Reading _ _ _ _ _ _ _) with u; [by rewrite V|].
  destruct u as [y m d h n s f]. unfold Utc.fits in R. cbn in *.
  f_equal; Z.div_mod_to_equations; lia.
Qed.

(** States with valid update times meet what the ordering of
    [get_previous_states_metadata] relies on. *)
Lemma valid_states_read_back (sts : list (@fleet_state Utc.maya)) :
  Forall (fun st : @fleet_state Utc.maya => Utc.valid (updated st) = true) sts ->
  Forall (reads_back (maya := Utc.maya)) sts.
Proof.
  intros V. eapply Forall_impl; [exact V|].
  intros st Hst. by apply read_rfc3339_text.
Qed.

Lemma valid_states_keep_seconds (sts : list (@fleet_state Utc.maya)) :
  Forall (fun st : @fleet_state Utc.maya => Utc.valid (updated st) = true) sts ->
  datetime_keeps_seconds (sqlite := Sample.sqlite) (maya := Utc.maya)
    Utc.whole_second sts.
Proof.
  intros V a b Ha Hb.
  apply (datetime_orders_by_second (updated a) (updated b));
    apply valid_fits; by apply (proj1 (Forall_forall _ _) V).
Qed.

End UtcFacts.

Section StableSortFacts.
Context {A : Type} (R : A -> A -> Prop) `{!forall x y, Decision (R x y)}.

Lemma insert_sorted_Permutation (x : A) (l : list A) :
  insert_sorted R x l ≡ₚ x :: l.
Proof.
  induction l as [|y l IH]; [done|]. simpl.
  destruct (decide (R x y)); [done|].
  rewrite IH. apply Permutation_swap.
Qed.

Lemma stable_sort_Permutation (l : list A) : stable_sort R l ≡ₚ l.
Proof.
  induction l as [|x l IH]; [done|].
  unfold stable_sort in *. simpl.
  by rewrite insert_sorted_Permutation, IH.
Qed.

Lemma insert_sorted_sorted `{!Transitive R} `{!Total R} (x : A) (l : list A) :
  StronglySorted R l -> StronglySorted R (insert_sorted R x l).
Proof.
  induction 1 as [|y l Hl IH Hy]; simpl.
  - by repeat constructor.
  - destruct (decide (R x y)) as [xy|nxy].
    + constructor; [by constructor|].
      constructor; [done|].
      eapply Forall_impl; [exact Hy|]. intros z yz. by trans y.
    + constructor; [done|].
      rewrite insert_sorted_Permutation. constructor; [|done].
      by destruct (total R x y).
Qed.

Lemma stable_sort_sorted `{!Transitive R} `{!Total R} (l : list A) :
  StronglySorted R (stable_sort R l).
Proof.
  induction l as [|x l IH]; [constructor|].
  unfold stable_sort in *. simpl. by apply insert_sorted_sorted.
Qed.

(** Stability: elements any two of which tie come out of the sort in the
    order they went in. *)
Lemma insert_sorted_ties (P : A -> Prop) `{!forall x, Decision (P x)}
    (x : A) (l : list A) :
  (forall a b, P a -> P b -> R a b) ->
  filter P (insert_sorted R x l) = filter P (x :: l).
Proof.
  intros ties. induction l as [|y l IH]; [done|]. simpl.
  destruct (decide (R x y)) as [xy|nxy]; [done|].
  rewrite (filter_cons P y), IH, !(filter_cons P x), (filter_cons P y).
  destruct (decide (P y)) as [py|npy]; [|done].
  destruct (decide (P x)) as [px|npx]; [|done].
  destruct nxy. by apply ties.
Qed.

Lemma stable_sort_ties (P : A -> Prop) `{!forall x, Decision (P x)} (l : list A) :
  (forall a b, P a -> P b -> R a b) ->
  filter P (stable_sort R l) = filter P l.
Proof.
  intros ties. induction l as [|x l IH]; [done|].
  unfold stable_sort in *. simpl.
  rewrite insert_sorted_ties by done.
  by rewrite !(filter_cons P x), IH.
Qed.

End StableSortFacts.

(** Sorting the images of a list is sorting the list, where the two orders
    agree on its elements. *)
Lemma insert_sorted_fmap {A B} (R : A -> A -> Prop) (R' : B -> B -> Prop)
    `{!forall x y, Decision (R x y)} `{!forall x y, Decision (R' x y)}
    (f : B -> A) (x : B) (l : list B) :
  (forall b, b ∈ l -> (R' x b <-> R (f x) (f b))) ->
  insert_sorted R (f x) (f <$> l) = f <$> insert_sorted R' x l.
Proof.
  induction l as [|y l IH]; intros agree; [done|]. cbn.
  assert (R' x y <-> R (f x) (f y)) as Hxy by (apply agree; left).
  destruct (decide (R (f x) (f y))) as [r|nr]; destruct (decide (R' x y)) as [r'|nr'].
  - done.
  - destruct nr'. by apply Hxy.
  - destruct nr. by apply Hxy.
  - cbn. f_equal. apply IH. intros b Hb. apply agree. by right.
Qed.

Lemma stable_sort_fmap {A B} (R : A -> A -> Prop) (R' : B -> B -> Prop)
    `{!forall x y, Decision (R x y)} `{!forall x y, Decision (R' x y)}
    (f : B -> A) (l : list B) :
  (forall a b, a ∈ l -> b ∈ l -> (R' a b <-> R (f a) (f b))) ->
  stable_sort R (f <$> l) = f <$> stable_sort R' l.
Proof.
  induction l as [|x l IH]; intros agree; [done|].
  unfold stable_sort in *. cbn.
  rewrite IH by (intros a b Ha Hb; apply agree; by right).
  apply insert_sorted_fmap. intros b Hb. apply agree; [left|right].
  by rewrite <- (stable_sort_Permutation R' l).
Qed.

Section ReaderFacts.
Context {sqlite : Builtins} {maya : Maya} {base : SQLiteForgetfulNodeStorage}.

Lemma next_conn_is_fresh (w : world) :
  wf_world w -> connections w !! next_conn w = None.
Proof.
  intros wf. destruct (connections w !! next_conn w) eqn:E; [|done].
  specialize (wf (next_conn w)). rewrite E in wf.
  assert (next_conn w < next_conn w)%nat by (apply wf; eauto). lia.
Qed.

(** The shape both readers have: connect, then [try] one statement and the
    loop over its rows, [finally] close. *)
Lemma connect_try_finally_close {A} (path : string) (q : sql)
    (loop : cursor -> outcome A) (w : world) :
  wf_world w ->
  own_connection path
    (do db_conn <- sqlite3_connect path;
     try_finally (do result <- conn_execute db_conn q []; lift (loop result))
                 (conn_close db_conn)) w.
Proof.
  intros wf. pose proof (next_conn_is_fresh w wf) as fresh.
  unfold own_connection.
  destruct (decide (path ∈ unopenable w)) as [no|yes].
  - unfold bind, sqlite3_connect. by rewrite decide_True.
  - split; [done|].
    unfold try_finally, bind, sqlite3_connect, conn_execute, conn_close, lift.
    rewrite decide_False by done. cbn [connections files].
    rewrite lookup_insert_eq.
    destruct (execute q [] _) as [[result|e] d]; cbn;
      rewrite delete_insert_id by done; (split; [done|]);
      exists q; by rewrite <- !app_assoc.
Qed.

(** C9. Each of the two readers asks [sqlite3.connect] for a connection of
    its own (one that was not open before the call, so not the storage
    object's [db_conn] either), runs its statement on it, and has closed it
    when it returns or raises: the connections open after the call are
    those open before it. *)
Theorem readers_use_their_own_connection
    (self : crawler_node_storage) (limit : Z) (w : world) :
  wf_world w ->
  own_connection (_db_filepath self) (get_known_nodes_metadata self) w /\
  own_connection (_db_filepath self) (get_previous_states_metadata self limit) w.
Proof.
  intros wf. split.
  - apply (connect_try_finally_close (_db_filepath self) _ _ w wf).
  - apply (connect_try_finally_close (_db_filepath self) _ _ w wf).
Qed.

(** ** ORDER BY ... DESC LIMIT n *)

Lemma value_leb_total (a b : value) : value_leb a b = true \/ value_leb b a = true.
Proof.
  destruct a as [|x|s], b as [|y|t]; simpl; auto.
  - destruct (Z.leb_spec x y); [by left|right]. apply Z.leb_le. lia.
  - apply String.leb_total.
Qed.

Lemma string_leb_trans (a b c : string) :
  String.leb a b = true -> String.leb b c = true -> String.leb a c = true.
Proof.
  unfold String.leb.
  destruct (String.compare a b) eqn:Eab; [|..|done]; intros _.
  - apply String_as_OT.cmp_eq in Eab. by subst.
  - destruct (String.compare b c) eqn:Ebc; [|..|done]; intros _.
    + apply String_as_OT.cmp_eq in Ebc. subst. by rewrite Eab.
    + apply String_as_OT.cmp_lt in Eab, Ebc.
      pose proof (String_as_OT.lt_trans _ _ _ Eab Ebc) as Eac.
      apply String_as_OT.cmp_lt in Eac. unfold String_as_OT.cmp in Eac.
      by rewrite Eac.
Qed.

Lemma value_leb_trans (a b c : value) :
  value_leb a b = true -> value_leb b c = true -> value_leb a c = true.
Proof.
  destruct a as [|x|s], b as [|y|t], c as [|z|u]; simpl; try done.
  - rewrite !Z.leb_le. lia.
  - apply string_leb_trans.
Qed.

Lemma desc_by_total (i : nat) : Total (desc_by i).
Proof. intros r1 r2. unfold desc_by. apply value_leb_total. Qed.

Lemma desc_by_trans (i : nat) : Transitive (desc_by i).
Proof.
  intros r1 r2 r3. unfold desc_by. intros H12 H23.
  by apply (value_leb_trans _ (datetime (cell i r2))).
Qed.

Lemma order_desc_sorted (i : nat) (rs : list row) :
  StronglySorted (desc_by i) (order_desc i rs).
Proof.
  apply stable_sort_sorted; [apply desc_by_trans|apply desc_by_total].
Qed.

Lemma order_desc_Permutation (i : nat) (rs : list row) : order_desc i rs ≡ₚ rs.
Proof. apply stable_sort_Permutation. Qed.

Lemma limit_rows_sorted (i : nat) (n : Z) (rs : list row) :
  StronglySorted (desc_by i) rs -> StronglySorted (desc_by i) (limit_rows n rs).
Proof.
  intros S. unfold limit_rows. destruct (n <? 0); [done|].
  rewrite <- (take_drop (Z.to_nat n) rs) in S.
  by apply StronglySorted_app_1_l in S.
Qed.

Lemma limit_rows_submseteq (n : Z) (rs : list row) : limit_rows n rs ⊆+ rs.
Proof.
  unfold limit_rows. destruct (n <? 0); [done|].
  apply sublist_submseteq, sublist_take.
Qed.

Lemma limit_rows_length (n : Z) (rs : list row) :
  length (limit_rows n rs)
  = if n <? 0 then length rs else (Z.to_nat n `min` length rs)%nat.
Proof. unfold limit_rows. destruct (n <? 0); [done|]. apply length_take. Qed.

(** The loop over the cursor: when every row converts, it returns one
    record per row, in the cursor's order. *)
Lemma states_loop (cols : list string) (sel : list row) :
  Forall (fun r => is_return (state_info_of cols r) = true) sel ->
  forall acc,
  exists states,
    fold_each sel acc (fun states_dict_list row =>
      match state_info_of cols row with
      | Raise e => Raise e
      | Return state_info => Return (states_dict_list ++ [state_info])
      end) = Return (acc ++ states) /\
    Forall2 (fun r st => state_info_of cols r = Return st) sel states.
Proof.
  induction 1 as [|r sel Hr Hsel IH]; intros acc.
  - exists []. simpl. by rewrite app_nil_r.
  - simpl. destruct (state_info_of cols r) as [st|e] eqn:E; [|done].
    destruct (IH (acc ++ [st])) as (states & R & F).
    exists (st :: states). split.
    + rewrite R. by rewrite <- app_assoc.
    + by constructor.
Qed.

End ReaderFacts.

(* ===================================================================== *)
(** * Facts about the store                                               *)
(* ===================================================================== *)

Section StoreFacts.
Context {sqlite : Builtins} {maya : Maya} {base : SQLiteForgetfulNodeStorage}.

Lemma store_eta {F} (s : store F) : Store (db s) (fields s) = s.
Proof. by destruct s. Qed.

(** SQLite has no statement that starts with DELETE FORM. *)
Lemma delete_form_does_not_parse :
  parse [K DELETE; Id "FORM"; Id STATE_DB_NAME] = None.
Proof. reflexivity. Qed.

(** C1. [clear(metadata=True, ...)] never empties anything: its own
    statement is refused as a syntax error, the transaction is rolled back,
    the exception leaves [clear] before the base class is asked to clear,
    and the store (the three tables and the certificates) is as it was. *)
Theorem clear_metadata_raises (certificates : bool) (s : store base_fields) :
  clear true certificates s = (Raise (OperationalError SyntaxError), s).
Proof.
  unfold clear, bind, with_db_conn, db_conn_execute, execute.
  rewrite delete_form_does_not_parse. simpl.
  by rewrite store_eta.
Qed.

(** C2, as the code has it. [init_db_tables] throws the fleet-state rows
    away: whatever the table held, it is dropped and created anew, empty,
    with its five columns and [nickname] as key; the other tables and the
    base class's fields are handed unchanged to the base class's own
    [init_db_tables], which alone decides about node rows and teacher. *)
Theorem init_db_tables_recreates_state_table (s : store base_fields) :
  init_db_tables s =
  super_init_db_tables
    (Store (<[STATE_DB_NAME := Table state_columns (Some 0%nat) []]> (db s))
           (fields s)).
Proof.
  unfold init_db_tables, bind, with_db_conn, db_conn_execute, execute, ret.
  simpl. rewrite lookup_delete_eq. simpl.
  by rewrite insert_delete_eq.
Qed.

(** With [metadata=False] the subclass runs no statement of its own:
    [clear] is the base class's [clear], whatever the base class is. *)
Lemma clear_without_metadata (certificates : bool) (s : store base_fields) :
  clear false certificates s = super_clear false certificates s.
Proof. reflexivity. Qed.

(** ** REPLACE INTO, one write and many *)

Lemma same_key_text (n : string) (r r' : row) :
  cell 0 r = VText n ->
  same_key (Some 0%nat) r r' = false <-> cell 0 r' <> VText n.
Proof.
  intros E. unfold same_key. rewrite E.
  destruct (cell 0 r') as [|z|t]; simpl; try (split; [intros _ ?|]; done).
  destruct (String.eqb_spec n t) as [->|ne].
  - split; [done | intros ne; by destruct ne].
  - split; [intros _ [=] | ]; done.
Qed.

Lemma replace_row_same_nickname (n : string) (r : row) (rs : list row) :
  cell 0 r = VText n ->
  rows_of_nickname n (replace_row (Some 0%nat) r rs) = [r] /\
  rows_of_other_nicknames n (replace_row (Some 0%nat) r rs)
  = rows_of_other_nicknames n rs.
Proof.
  intros E. unfold rows_of_nickname, rows_of_other_nicknames, replace_row.
  rewrite !filter_app. split.
  - replace (filter (λ r0, cell 0 r0 = VText n)
               (filter (λ r', same_key (Some 0%nat) r r' = false) rs)) with (@nil row).
    + simpl. rewrite filter_cons_True by done. done.
    + symmetry. induction rs as [|r' rs IH]; [done|].
      rewrite (filter_cons (λ r', same_key (Some 0%nat) r r' = false)).
      destruct (decide (same_key (Some 0%nat) r r' = false)) as [k|k]; [|done].
      rewrite filter_cons_False; [done|]. by apply (same_key_text n r r').
  - rewrite (filter_cons_False _ r []) by (intros ne; by apply ne).
    rewrite filter_nil, app_nil_r.
    induction rs as [|r' rs IH]; [done|].
    rewrite (filter_cons (λ r', same_key (Some 0%nat) r r' = false)).
    destruct (decide (same_key (Some 0%nat) r r' = false)) as [k|k].
    + apply (same_key_text n r r' E) in k.
      rewrite !filter_cons_True by done. by rewrite IH.
    + rewrite (filter_cons_False _ r' rs); [done|].
      intros ne. apply k. by apply (same_key_text n r r').
Qed.

(** One write, on a store that has the table: the row is put in place by
    REPLACE and nothing else changes. *)
Lemma store_state_metadata_replaces (st : fleet_state) (s : store base_fields) tb :
  db s !! STATE_DB_NAME = Some tb ->
  columns tb = state_columns ->
  store_state_metadata st s =
  (Return tt,
   Store (<[STATE_DB_NAME :=
              Table (columns tb) (primary_key tb)
                    (replace_row (primary_key tb) (db_row st) (rows tb))]> (db s))
         (fields s)).
Proof.
  intros Htb Hcols.
  unfold store_state_metadata, __write_state_metadata, with_db_conn, bind,
    db_conn_execute, execute, ret. simpl.
  rewrite Htb, Hcols. reflexivity.
Qed.

Lemma writes_fold (l : list fleet_state) (s : store base_fields) :
  has_state_table s ->
  exists s',
    for_each l store_state_metadata s = (Return tt, s') /\
    has_state_table s' /\
    state_rows s' =
    fold_left (fun rs st => replace_row (Some 0%nat) (db_row st) rs) l (state_rows s).
Proof.
  revert s. induction l as [|st l IH]; intros s Hs.
  - exists s. by repeat split.
  - destruct Hs as (tb & Htb & Hcols & Hpk).
    pose proof (store_state_metadata_replaces st s tb Htb Hcols) as W.
    simpl. unfold bind at 1. rewrite W.
    match goal with |- context [for_each l _ ?s1] => set (s1' := s1) end.
    destruct (IH s1') as (s' & R & T & E).
    { exists (Table (columns tb) (primary_key tb)
                (replace_row (primary_key tb) (db_row st) (rows tb))).
      subst s1'. simpl. by rewrite lookup_insert_eq. }
    exists s'. repeat split; [done..|].
    rewrite E. f_equal. subst s1'. unfold state_rows. simpl.
    rewrite lookup_insert_eq, Htb, Hpk. done.
Qed.

Lemma last_cons_default {A} (l : list A) (a d : A) :
  List.last (a :: l) d = List.last l a.
Proof.
  revert a d. induction l as [|b l IH]; intros a d; [done|].
  change (List.last (a :: b :: l) d) with (List.last (b :: l) d).
  by rewrite (IH b d), (IH b a).
Qed.

Lemma fold_replace_same_nickname (n : string) (l : list fleet_state) :
  forall (st : fleet_state) (rs : list row),
    Forall (fun st' => nickname st' = n) (st :: l) ->
    rows_of_nickname n
      (fold_left (fun rs st => replace_row (Some 0%nat) (db_row st) rs) (st :: l) rs)
    = [db_row (List.last l st)] /\
    rows_of_other_nicknames n
      (fold_left (fun rs st => replace_row (Some 0%nat) (db_row st) rs) (st :: l) rs)
    = rows_of_other_nicknames n rs.
Proof.
  induction l as [|st' l IH]; intros st rs Hall.
  - cbn [fold_left List.last]. apply replace_row_same_nickname.
    inversion Hall; subst. done.
  - inversion Hall as [|? ? Hst Hrest]; subst.
    destruct (IH st' (replace_row (Some 0%nat) (db_row st) rs) Hrest) as [IH1 IH2].
    rewrite (last_cons_default l st' st).
    change (fold_left ?f (st :: st' :: l) rs)
      with (fold_left f (st' :: l) (f rs st)).
    split; [exact IH1|].
    rewrite IH2.
    by apply (replace_row_same_nickname (nickname st) (db_row st) rs).
Qed.

(** C3. Any number of writes under one nickname, on a store that has the
    fleet-state table: every write goes through, and afterwards the table
    holds that nickname in exactly one row, which carries the fields of the
    last write (the nickname, its symbol, colour code and colour name, and
    the RFC 3339 text of its update time); the rows of other nicknames are
    the ones that were there. *)
Theorem repeated_writes_keep_one_row
    (n : string) (first : fleet_state) (more : list fleet_state)
    (s : store base_fields) :
  has_state_table s ->
  Forall (fun st => nickname st = n) (first :: more) ->
  exists s',
    for_each (first :: more) store_state_metadata s = (Return tt, s') /\
    has_state_table s' /\
    rows_of_nickname n (state_rows s')
    = [[VText n;
        VText (symbol (List.last more first));
        VText (color_hex (List.last more first));
        VText (color_name (List.last more first));
        VText (rfc3339 (updated (List.last more first)))]] /\
    rows_of_other_nicknames n (state_rows s')
    = rows_of_other_nicknames n (state_rows s).
Proof.
  intros Hs Hall.
  destruct (writes_fold (first :: more) s Hs) as (s' & R & T & E).
  exists s'. split; [done|]. split; [done|].
  rewrite E.
  destruct (fold_replace_same_nickname n more first (state_rows s) Hall)
    as [Hone Hothers].
  split; [|exact Hothers]. rewrite Hone. unfold db_row.
  assert (nickname (List.last more first) = n) as ->; [|done].
  apply (proj1 (Forall_forall _ _) Hall).
  destruct more as [|st more]; [left|].
  rewrite last_cons_default. right.
  clear. revert st. induction more as [|st' more IH]; intros st; [left|].
  rewrite last_cons_default. right. apply IH.
Qed.

End StoreFacts.

(** C8. What [clear(metadata=False, certificates=True)] removes is decided
    by the base class, which is nucypher's; against the base class as the
    specification describes it ([Sample.base]), and for every content of the
    store: the call returns, the database is the one it was, so every row of
    the node, fleet-state and teacher tables is unchanged, and no
    certificate is left. *)
Theorem clear_certificates_keeps_tables
    {sqlite : Builtins} (s : store (list (string * string))) :
  clear (base := Sample.base) false true s = (Return tt, Store (db s) []).
Proof. by rewrite (clear_without_metadata (base := Sample.base)). Qed.

(* ===================================================================== *)
(** * Facts about the historical queries                                  *)
(* ===================================================================== *)

Section WindowFacts.

Lemma timedelta_days (n : Z) :
  Z.abs n <= 999999999 -> timedelta n = Return (Timedelta n 0 0).
Proof.
  intros Hn. unfold timedelta.
  destruct (Z.leb_spec (Z.abs n) 999999999); [done|lia].
Qed.

Lemma add_days_at_midnight (T n : Z) :
  0 < T + n <= MAXORDINAL ->
  datetime_add (Datetime T 0 0 0 0) (Timedelta n 0 0)
  = Return (Datetime (T + n) 0 0 0 0).
Proof.
  intros Hr. unfold datetime_add, time_of_day.
  cbn [toordinal hour minute second microsecond td_days td_seconds td_microseconds].
  change (((0 * 60 + 0) * 60 + 0) * 1000000 + 0 + 0 * 1000000 + 0) with 0.
  change (0 / us_per_day) with 0. change (0 mod us_per_day) with 0.
  rewrite Z.add_0_r.
  destruct (Z.ltb_spec 0 (T + n)); [|lia].
  destruct (Z.leb_spec (T + n) MAXORDINAL); [|lia].
  reflexivity.
Qed.

Lemma sub_days_at_midnight (T n : Z) :
  0 < T - n <= MAXORDINAL ->
  datetime_sub (Datetime T 0 0 0 0) (Timedelta n 0 0)
  = Return (Datetime (T - n) 0 0 0 0).
Proof.
  intros Hr. unfold datetime_sub.
  cbn [td_days td_seconds td_microseconds]. change (- 0) with 0.
  rewrite add_days_at_midnight by lia. reflexivity.
Qed.

Lemma timestamp_at_midnight (d : Z) :
  timestamp (Datetime d 0 0 0 0) = midnight d.
Proof. unfold timestamp, time_of_day, midnight. simpl. lia. Qed.

(** An instant lies between the two midnights exactly when its day is one
    of the window's. *)
Lemma window_days (today : datetime_t) (days t : Z) :
  midnight (toordinal today - (days - 1)) <= t < midnight (toordinal today + 1)
  <-> in_window today days (day_of t).
Proof.
  unfold midnight, in_window, day_of, us_per_day.
  split; intros; Z.div_mod_to_equations; lia.
Qed.

(** What the server reads in the text of the two queries. *)
Lemma locked_tokens_text_reads (b e : Z) :
  parse_influxql
    [QWord "SELECT"; QWord "SUM"; QOpen; QWord "locked_stake"; QClose;
     QWord "FROM"; QOpen;
     QWord "SELECT"; QWord "staker_address"; QComma;
     QWord "current_period"; QComma;
     QWord "LAST"; QOpen; QWord "locked_stake"; QClose;
     QWord "AS"; QWord "locked_stake";
     QWord "FROM"; QWord "moe_network_info";
     QWord "WHERE"; QWord "time"; QGe; QInstant b;
     QWord "AND";
     QWord "time"; QLt; QInstant e;
     QWord "GROUP"; QWord "BY"; QWord "staker_address"; QComma;
     QWord "time"; QOpen; QDuration 1 "d"; QClose;
     QClose;
     QWord "GROUP"; QWord "BY"; QWord "time"; QOpen; QDuration 1 "d"; QClose]
  = Some (Query SUM_locked_stake b e).
Proof. reflexivity. Qed.

Lemma num_stakers_text_reads (b e : Z) :
  parse_influxql
    [QWord "SELECT"; QWord "COUNT"; QOpen; QWord "staker_address"; QClose;
     QWord "FROM";
     QOpen;
     QWord "SELECT"; QWord "staker_address"; QComma;
     QWord "LAST"; QOpen; QWord "locked_stake"; QClose;
     QWord "FROM"; QWord "moe_network_info"; QWord "WHERE";
     QWord "time"; QGe; QInstant b; QWord "AND";
     QWord "time"; QLt; QInstant e;
     QWord "GROUP"; QWord "BY"; QWord "staker_address"; QComma;
     QWord "time"; QOpen; QDuration 1 "d"; QClose;
     QClose;
     QWord "GROUP"; QWord "BY"; QWord "time"; QOpen; QDuration 1 "d"; QClose]
  = Some (Query COUNT_staker_address b e).
Proof. reflexivity. Qed.

(** Both readers, on dates that exist: the one query they send, and the
    loop over its rows. *)
Lemma locked_tokens_run (today : datetime_t) (days : Z) (c : influxdb) :
  representable today days ->
  get_historical_locked_tokens_over_range today days c =
  (let q := Query SUM_locked_stake (midnight (toordinal today - (days - 1)))
                  (midnight (toordinal today + 1)) in
   (Return (fold_left (fun acc r => if truthy (snd r)
                                    then odict_set (fst r) (snd r) acc else acc)
                      (evaluate (series c) q) []),
    InfluxDBClient (series c) (issued c ++ [q]))).
Proof.
  intros [Ht Hb]. unfold MAXORDINAL in *.
  unfold get_historical_locked_tokens_over_range, bind, lift, client_query, ret.
  rewrite timedelta_days by lia.
  rewrite sub_days_at_midnight by (unfold MAXORDINAL; lia).
  rewrite timedelta_days by lia.
  rewrite add_days_at_midnight by (unfold MAXORDINAL; lia).
  by rewrite locked_tokens_text_reads, !timestamp_at_midnight.
Qed.

Lemma num_stakers_run (today : datetime_t) (days : Z) (c : influxdb) :
  representable today days ->
  get_historical_num_stakers_over_range today days c =
  (let q := Query COUNT_staker_address (midnight (toordinal today - (days - 1)))
                  (midnight (toordinal today + 1)) in
   (Return (fold_left (fun acc r => if truthy (snd r)
                                    then odict_set (fst r) (snd r) acc else acc)
                      (evaluate (series c) q) []),
    InfluxDBClient (series c) (issued c ++ [q]))).
Proof.
  intros [Ht Hb]. unfold MAXORDINAL in *.
  unfold get_historical_num_stakers_over_range, bind, lift, client_query, ret.
  rewrite timedelta_days by lia.
  rewrite sub_days_at_midnight by (unfold MAXORDINAL; lia).
  rewrite timedelta_days by lia.
  rewrite add_days_at_midnight by (unfold MAXORDINAL; lia).
  by rewrite num_stakers_text_reads, !timestamp_at_midnight.
Qed.

(** C6. On dates that exist, each of the two readers sends one query, and
    its WHERE clause runs from 00:00 UTC of the day [days - 1] days before
    today (included) to 00:00 UTC of tomorrow (excluded): [days] whole days,
    and an instant is in the range exactly when its UTC day is one of the
    [days] days that end with today. *)
Theorem queried_window_is_the_last_days
    (today : datetime_t) (days : Z) (c : influxdb) :
  representable today days ->
  let range_begin := midnight (toordinal today - (days - 1)) in
  let range_stop := midnight (toordinal today + 1) in
  issued (snd (get_historical_locked_tokens_over_range today days c))
  = issued c ++ [Query SUM_locked_stake range_begin range_stop] /\
  issued (snd (get_historical_num_stakers_over_range today days c))
  = issued c ++ [Query COUNT_staker_address range_begin range_stop] /\
  range_stop - range_begin = days * us_per_day /\
  forall t, range_begin <= t < range_stop <-> in_window today days (day_of t).
Proof.
  intros Hr. cbv zeta.
  rewrite locked_tokens_run, num_stakers_run by done. cbn [snd issued].
  split; [done|]. split; [done|]. split.
  - unfold midnight, us_per_day. lia.
  - intros t. apply window_days.
Qed.

End WindowFacts.

Section AggregateFacts.

Lemma odict_get_set_eq (k : Z) (v : number) (d : ordered_dict) :
  odict_get k (odict_set k v d) = Some v.
Proof.
  induction d as [|[k' v'] d IH]; simpl.
  - by rewrite Z.eqb_refl.
  - destruct (Z.eqb_spec k' k); simpl.
    + by rewrite Z.eqb_refl.
    + destruct (Z.eqb_spec k' k); [done|]. exact IH.
Qed.

Lemma odict_get_set_ne (k k' : Z) (v : number) (d : ordered_dict) :
  k <> k' -> odict_get k (odict_set k' v d) = odict_get k d.
Proof.
  intros ne. induction d as [|[k0 v0] d IH]; simpl.
  - destruct (Z.eqb_spec k' k); [congruence|done].
  - destruct (Z.eqb_spec k0 k'); simpl.
    + subst. destruct (Z.eqb_spec k' k); [congruence|done].
    + destruct (Z.eqb_spec k0 k); [done|]. exact IH.
Qed.

(** A key that no row carries is looked up as before the loop. *)
Lemma loop_skips (rs : list (Z * number)) (k : Z) :
  k ∉ rs.*1 ->
  forall acc, odict_get k (fold_left keep_truthy rs acc) = odict_get k acc.
Proof.
  induction rs as [|[k' v'] rs IH]; intros Hk acc; [done|].
  simpl in Hk. apply not_elem_of_cons in Hk as [ne Hk].
  simpl. rewrite IH by done. unfold keep_truthy. simpl.
  destruct (truthy v'); [|done]. by apply odict_get_set_ne.
Qed.

(** The row of a key decides: a truthy value is stored, another is not. *)
Lemma loop_keeps_truthy (rs : list (Z * number)) (k : Z) (v : number) :
  NoDup rs.*1 -> (k, v) ∈ rs ->
  forall acc,
    odict_get k (fold_left keep_truthy rs acc)
    = if truthy v then Some v else odict_get k acc.
Proof.
  induction rs as [|[k' v'] rs IH]; intros ND Hin acc.
  - by apply elem_of_nil in Hin.
  - simpl in ND. apply NoDup_cons in ND as [Hk' ND].
    apply elem_of_cons in Hin as [E|Hin].
    + inversion E; subst k' v'. simpl. rewrite loop_skips by done.
      unfold keep_truthy. simpl. destruct (truthy v); [|done].
      apply odict_get_set_eq.
    + simpl. rewrite IH by done. destruct (truthy v); [done|].
      unfold keep_truthy. simpl. destruct (truthy v'); [|done].
      apply odict_get_set_ne. intros ->. apply Hk'.
      apply list_elem_of_fmap. by exists (k', v).
Qed.

Lemma midnight_inj (d1 d2 : Z) : midnight d1 = midnight d2 -> d1 = d2.
Proof. unfold midnight, us_per_day. lia. Qed.

Lemma buckets_NoDup (q : influxql) : NoDup (buckets q).
Proof.
  unfold buckets. destruct (time_ge q <? time_lt q); [|constructor].
  apply NoDup_fmap_2; [|apply NoDup_seq]. intros i j. lia.
Qed.

(** The buckets of the window are the days of the window. *)
Lemma buckets_window (a : aggregate) (today : datetime_t) (days d : Z) :
  d ∈ buckets (Query a (midnight (toordinal today - (days - 1)))
                     (midnight (toordinal today + 1)))
  <-> in_window today days d.
Proof.
  unfold buckets, in_window. cbn [time_ge time_lt].
  set (T := toordinal today).
  assert (day_of (midnight (T - (days - 1))) = T - (days - 1)) as E1.
  { unfold day_of, midnight. apply Z.div_mul. done. }
  assert (day_of (midnight (T + 1) - 1) = T) as E2.
  { unfold day_of, midnight, us_per_day. Z.div_mod_to_equations. lia. }
  rewrite E1, E2.
  destruct (Z.ltb_spec (midnight (T - (days - 1))) (midnight (T + 1))) as [lt|ge].
  - assert (1 <= days) by (unfold midnight, us_per_day in lt; lia).
    rewrite list_elem_of_fmap. setoid_rewrite elem_of_seq. split.
    + intros (i & -> & Hi). lia.
    + intros Hd. exists (Z.to_nat (d - (T - (days - 1)))). lia.
  - assert (days <= 0) by (unfold midnight, us_per_day in ge; lia).
    split; [intros Hd; by apply elem_of_nil in Hd | lia].
Qed.

(** In a bucket of the window, the points the query groups are the points
    observed that day. *)
Lemma bucket_points_of_window_day
    (a : aggregate) (today : datetime_t) (days d : Z) (series : list point) :
  in_window today days d ->
  bucket_points (Query a (midnight (toordinal today - (days - 1)))
                         (midnight (toordinal today + 1))) series d
  = day_points series d.
Proof.
  intros Hd. unfold bucket_points, day_points.
  apply list_filter_iff. intros p. unfold in_range. cbn [time_ge time_lt].
  split; [by intros [_ E]|]. intros E. split; [|done].
  apply window_days. by rewrite E.
Qed.

Lemma evaluate_keys (series : list point) (q : influxql) :
  (evaluate series q).*1 = midnight <$> buckets q.
Proof.
  unfold evaluate. rewrite <- list_fmap_compose. by apply list_fmap_ext.
Qed.

(** What a reader's dict holds for a day of the window: that day's
    aggregate when it is truthy, and nothing otherwise. *)
Lemma lookup_window_day
    (a : aggregate) (today : datetime_t) (days d : Z) (series : list point) :
  in_window today days d ->
  odict_get (midnight d)
    (fold_left keep_truthy
       (evaluate series (Query a (midnight (toordinal today - (days - 1)))
                                 (midnight (toordinal today + 1)))) [])
  = if truthy (apply_aggregate a (last_per_staker (day_points series d)))
    then Some (apply_aggregate a (last_per_staker (day_points series d)))
    else None.
Proof.
  intros Hd.
  rewrite (loop_keeps_truthy _ (midnight d)
             (apply_aggregate a (last_per_staker (day_points series d)))).
  - done.
  - rewrite evaluate_keys. apply NoDup_fmap_2; [|apply buckets_NoDup].
    intros d1 d2. apply midnight_inj.
  - unfold evaluate. apply list_elem_of_fmap. exists d. split.
    + cbn [select]. by rewrite bucket_points_of_window_day.
    + by apply buckets_window.
Qed.

(** And it holds nothing under any other key. *)
Lemma lookup_is_a_window_day
    (a : aggregate) (today : datetime_t) (days k : Z) (series : list point)
    (v : number) :
  odict_get k
    (fold_left keep_truthy
       (evaluate series (Query a (midnight (toordinal today - (days - 1)))
                                 (midnight (toordinal today + 1)))) [])
  = Some v ->
  exists d, k = midnight d /\ in_window today days d.
Proof.
  intros Hk.
  set (q := Query a _ _) in *.
  destruct (decide (k ∈ (evaluate series q).*1)) as [Hin|Hout].
  - rewrite evaluate_keys in Hin. apply list_elem_of_fmap in Hin as (d & -> & Hd).
    exists d. split; [done|]. by apply (buckets_window a).
  - rewrite loop_skips in Hk by done. discriminate.
Qed.

Lemma unobserved_day_has_no_aggregate (series : list point) (d : Z) :
  ~ observed series d ->
  daily_locked_stake series d = PyNone /\ daily_stakers series d = PyInt 0.
Proof.
  unfold observed, daily_locked_stake, daily_stakers. intros Hno.
  destruct (day_points series d) as [|p ps]; [done|]. by destruct Hno.
Qed.

(** C10. On dates that exist both calls return, and for a day of the
    window, whether or not samples were observed on it: when the day's sum
    of locked stakes is falsy (None, or zero) the day has no entry in the
    first dict, and when the day's count of stakers is falsy it has no entry
    in the second. *)
Theorem falsy_aggregates_are_omitted
    (today : datetime_t) (days : Z) (c : influxdb) (d : Z) :
  representable today days ->
  in_window today days d ->
  exists locked_tokens_dict num_stakers_dict,
    fst (get_historical_locked_tokens_over_range today days c)
    = Return locked_tokens_dict /\
    fst (get_historical_num_stakers_over_range today days c)
    = Return num_stakers_dict /\
    (truthy (daily_locked_stake (series c) d) = false ->
     odict_get (midnight d) locked_tokens_dict = None) /\
    (truthy (daily_stakers (series c) d) = false ->
     odict_get (midnight d) num_stakers_dict = None).
Proof.
  intros Hr Hd.
  rewrite locked_tokens_run, num_stakers_run by done. cbv zeta. cbn [fst].
  do 2 eexists. split; [reflexivity|]. split; [reflexivity|].
  change (fun acc r => if truthy r.2 then odict_set r.1 r.2 acc else acc)
    with keep_truthy.
  rewrite !lookup_window_day by done. cbn [apply_aggregate].
  fold (daily_locked_stake (series c) d). fold (daily_stakers (series c) d).
  split; intros ->; done.
Qed.

End AggregateFacts.

(* ===================================================================== *)
(** * Facts about the crawler's lifecycle                                 *)
(* ===================================================================== *)

(** C7. A stopped crawler with no task under way, facing a time-series
    store that cannot be reached: [start()] raises [ConnectionError] and
    the crawler is as it was, not running and without any task. *)
Theorem start_unreachable_stays_stopped (name : string) (c : Crawler.crawler) :
  Crawler.state c = Crawler.STOPPED ->
  Crawler.tasks c = [] ->
  Crawler.reachable (Crawler.time_series c) = false ->
  Crawler.start name c = (Raise ConnectionError, c) /\
  Crawler.is_running (snd (Crawler.start name c)) = false /\
  Crawler.tasks (snd (Crawler.start name c)) = [].
Proof.
  intros Hst Hts Hre.
  assert (Crawler.start name c = (Raise ConnectionError, c)) as E.
  { unfold Crawler.start, bind, Crawler.connect_time_series.
    by rewrite Hst, Hre. }
  rewrite E. cbn [snd]. unfold Crawler.is_running. by rewrite Hst.
Qed.

(* ===================================================================== *)
(** * More about the readers                                              *)
(* ===================================================================== *)

Section ReaderRuns.
Context {sqlite : Builtins} {maya : Maya} {base : SQLiteForgetfulNodeStorage}.

(** A reader on a file that opens: its outcome is the loop's over the
    cursor (or the statement's exception), and the file holds what the
    statement left. *)
Lemma reader_run {A} (path : string) (q : sql) (loop : cursor -> outcome A)
    (w : world) (d : database) :
  path ∉ unopenable w ->
  files w !! path = Some d ->
  fst ((do db_conn <- sqlite3_connect path;
        try_finally (do result <- conn_execute db_conn q []; lift (loop result))
                    (conn_close db_conn)) w)
  = match fst (execute q [] d) with
    | Return result => loop result
    | Raise e => Raise e
    end /\
  files (snd ((do db_conn <- sqlite3_connect path;
               try_finally (do result <- conn_execute db_conn q []; lift (loop result))
                           (conn_close db_conn)) w))
  = <[path := snd (execute q [] d)]> (files w).
Proof.
  intros Hopen Hfile.
  unfold try_finally, bind, sqlite3_connect, conn_execute, conn_close, lift.
  rewrite decide_False by done. cbn [connections files].
  rewrite lookup_insert_eq, Hfile. cbn [default from_option]. unfold id.
  destruct (execute q [] d) as [[result|e] d']; cbn; done.
Qed.

Lemma select_all_run (t : string) (d : database) :
  execute [K SELECT; Star; K FROM; Id t] [] d
  = (match d !! t with
     | Some tb => Return (Cursor (columns tb) (rows tb))
     | None => Raise (OperationalError (NoSuchTable t))
     end, d).
Proof. unfold execute. cbn. by destruct (d !! t). Qed.

Lemma select_ordered_run (t : string) (limit : Z) (d : database) :
  execute [K SELECT; Star; K FROM; Id t; K ORDER; K BY; Id "datetime"; LParen;
           Id "updated"; RParen; K DESC; K LIMIT; Num limit] [] d
  = (match d !! t with
     | Some tb =>
         match index_of "updated" (columns tb) with
         | Some i =>
             if is_int64 limit
             then Return (Cursor (columns tb)
                                 (limit_rows limit (order_desc i (rows tb))))
             else Raise (IntegrityError DatatypeMismatch)
         | None => Raise (OperationalError (NoSuchColumn "updated"))
         end
     | None => Raise (OperationalError (NoSuchTable t))
     end, d).
Proof.
  unfold execute. cbn. destruct (d !! t) as [tb|]; [|done].
  destruct (index_of "updated" (columns tb)); [|done].
  by destruct (is_int64 limit).
Qed.

(** X1. Neither reader writes: whatever it returns or raises, every
    database file holds afterwards what it held before. *)
Theorem readers_leave_the_files_alone
    (self : crawler_node_storage) (limit : Z) (w : world) (d : database) :
  files w !! _db_filepath self = Some d ->
  files (snd (get_known_nodes_metadata self w)) = files w /\
  files (snd (get_previous_states_metadata self limit w)) = files w.
Proof.
  intros Hfile.
  destruct (decide (_db_filepath self ∈ unopenable w)) as [no|yes].
  - unfold get_known_nodes_metadata, get_previous_states_metadata, bind,
      sqlite3_connect. by rewrite !decide_True.
  - split.
    + unfold get_known_nodes_metadata.
      rewrite (proj2 (reader_run _ _ _ w d yes Hfile)).
      rewrite select_all_run. cbn [snd]. by apply insert_id.
    + unfold get_previous_states_metadata.
      rewrite (proj2 (reader_run _ _ _ w d yes Hfile)).
      rewrite select_ordered_run. cbn [snd]. by apply insert_id.
Qed.

(** X2. On a database that has neither table yet, both readers raise
    [sqlite3.OperationalError] (no such table), each for its own table. *)
Theorem readers_raise_without_tables
    (self : crawler_node_storage) (limit : Z) (w : world) (d : database) :
  _db_filepath self ∉ unopenable w ->
  files w !! _db_filepath self = Some d ->
  d !! NODE_DB_NAME = None ->
  d !! SQLiteForgetfulNodeStorage_STATE_DB_NAME = None ->
  fst (get_known_nodes_metadata self w)
  = Raise (OperationalError (NoSuchTable NODE_DB_NAME)) /\
  fst (get_previous_states_metadata self limit w)
  = Raise (OperationalError (NoSuchTable SQLiteForgetfulNodeStorage_STATE_DB_NAME)).
Proof.
  intros Hopen Hfile Hnode Hstate. split.
  - unfold get_known_nodes_metadata.
    rewrite (proj1 (reader_run _ _ _ w d Hopen Hfile)).
    by rewrite select_all_run, Hnode.
  - unfold get_previous_states_metadata.
    rewrite (proj1 (reader_run _ _ _ w d Hopen Hfile)).
    by rewrite select_ordered_run, Hstate.
Qed.

(** ** The records the loops build *)

Lemma fold_each_app {A B} (xs ys : list A) (acc : B) (body : B -> A -> outcome B) :
  fold_each (xs ++ ys) acc body
  = match fold_each xs acc body with
    | Return acc' => fold_each ys acc' body
    | Raise e => Raise e
    end.
Proof.
  revert acc. induction xs as [|x xs IH]; intros acc; simpl; [done|].
  destruct (body acc x); [apply IH|done].
Qed.

Lemma enumerate_snoc {A} (l : list A) (x : A) :
  enumerate (l ++ [x]) = enumerate l ++ [(length l, x)].
Proof. unfold enumerate. rewrite imap_app. simpl. by rewrite Nat.add_0_r. Qed.

Lemma record_of_snoc (cols : list string) (r : row) (c : string) (v : value) :
  NoDup cols -> cols !! length r = Some c ->
  record_of cols (r ++ [v]) = <[c := v]> (record_of cols r).
Proof.
  intros ND Hc. unfold record_of.
  rewrite zip_with_app_r, zip_with_take_l, (drop_S _ _ _ Hc). cbn [zip_with].
  rewrite zip_with_nil_r. apply list_to_map_snoc.
  assert (length r < length cols)%nat as Hlen.
  { apply lookup_lt_is_Some. eauto. }
  rewrite <- (zip_with_take_l pair cols r).
  rewrite fst_zip by (rewrite length_take; lia).
  rewrite <- (take_drop_middle _ _ _ Hc) in ND.
  apply NoDup_app in ND as (_ & Hdisj & _).
  intros Hin. apply (Hdisj c Hin). apply list_elem_of_here.
Qed.

(** The inner loop of [get_known_nodes_metadata], after the first cells of
    the row: the record of these cells. *)
Lemma node_info_prefix (cols : list string) (r : row) :
  NoDup cols ->
  forall rest : row,
    (length r <= length cols)%nat ->
    fold_each (enumerate r) ∅ (fun node_info iv =>
      match subscript cols (fst iv), subscript (r ++ rest) (fst iv) with
      | Return c, Return v => Return (<[c := v]> node_info)
      | Raise e, _ => Raise e
      | _, Raise e => Raise e
      end)
    = Return (record_of cols r).
Proof.
  intros ND. induction r as [|v r IH] using rev_ind; intros rest Hlen.
  - unfold record_of. simpl. by destruct cols.
  - rewrite length_app in Hlen. simpl in Hlen.
    rewrite enumerate_snoc, fold_each_app, <- app_assoc.
    rewrite IH by lia. cbn [fold_each fst app].
    destruct (cols !! length r) as [c|] eqn:Hc.
    + unfold subscript. rewrite Hc, (list_lookup_middle r rest v) by done.
      by rewrite (record_of_snoc cols r c v).
    + apply lookup_ge_None in Hc. lia.
Qed.

Lemma node_info_of_record (cols : list string) (r : row) :
  NoDup cols -> (length r <= length cols)%nat ->
  node_info_of cols r = Return (record_of cols r).
Proof.
  intros ND Hlen. unfold node_info_of.
  pose proof (node_info_prefix cols r ND [] Hlen) as P.
  by rewrite app_nil_r in P.
Qed.

(** In a record, each column name leads to the row's value in that column. *)
Lemma record_of_lookup (cols : list string) (r : row) (i : nat) (c : string) :
  NoDup cols -> length r = length cols -> cols !! i = Some c ->
  record_of cols r !! c = r !! i.
Proof.
  intros ND Hlen Hc.
  destruct (r !! i) as [v|] eqn:Hv.
  - apply elem_of_list_to_map_1.
    + rewrite fst_zip by lia. done.
    + apply list_elem_of_lookup. exists i. by apply lookup_zip_Some.
  - apply lookup_ge_None in Hv. apply lookup_lt_Some in Hc. lia.
Qed.

(** The outer loop, on rows that fit a table with columns. *)
Lemma known_nodes_loop (cols : list string) (rs : list row) :
  NoDup cols -> cols <> [] ->
  Forall (fun r => length r = length cols) rs ->
  forall acc : gmap value dict,
    fold_each rs acc (fun known_nodes row =>
      match subscript row 0 with
      | Raise e => Raise e
      | Return staker_address =>
          match node_info_of cols row with
          | Raise e => Raise e
          | Return node_info =>
              Return (<[staker_address := node_info]> known_nodes)
          end
      end)
    = Return (fold_left (fun m r => <[cell 0 r := record_of cols r]> m) rs acc).
Proof.
  intros ND Hcols Hfit. induction Hfit as [|r rs Hr Hrs IH]; intros acc; [done|].
  cbn [fold_each fold_left].
  destruct r as [|v r].
  { destruct cols; [done|discriminate]. }
  cbn [subscript lookup list_lookup].
  rewrite node_info_of_record by (done || lia).
  apply IH.
Qed.

Lemma known_nodes_other (cols : list string) (rs : list row) (k : value) :
  k ∉ cell 0 <$> rs ->
  forall acc : gmap value dict,
    fold_left (fun m r => <[cell 0 r := record_of cols r]> m) rs acc !! k = acc !! k.
Proof.
  induction rs as [|r rs IH]; intros Hk acc; [done|].
  rewrite fmap_cons in Hk. apply not_elem_of_cons in Hk as [ne Hk].
  cbn [fold_left]. rewrite IH by done. by rewrite lookup_insert_ne.
Qed.

Lemma known_nodes_lookup (cols : list string) (rs : list row) (r : row) :
  NoDup (cell 0 <$> rs) -> r ∈ rs ->
  forall acc : gmap value dict,
    fold_left (fun m r => <[cell 0 r := record_of cols r]> m) rs acc !! cell 0 r
    = Some (record_of cols r).
Proof.
  induction rs as [|r' rs IH]; intros ND Hin acc.
  - by apply elem_of_nil in Hin.
  - rewrite fmap_cons in ND. apply NoDup_cons in ND as [Hr' ND].
    cbn [fold_left]. apply elem_of_cons in Hin as [->|Hin].
    + rewrite known_nodes_other by done. by rewrite lookup_insert_eq.
    + by apply IH.
Qed.

(** X3. On a node table with distinct column names, rows as wide as the
    table and distinct addresses in the first column,
    [get_known_nodes_metadata] returns a dict that holds, under the first
    cell of every row, the record of that row, and holds nothing under any
    other key; in a record every column name leads to the row's value in
    that column. An empty table gives the empty dict. *)
Theorem known_nodes_by_address
    (self : crawler_node_storage) (w : world) (d : database) (tb : table) :
  _db_filepath self ∉ unopenable w ->
  files w !! _db_filepath self = Some d ->
  d !! NODE_DB_NAME = Some tb ->
  NoDup (columns tb) -> columns tb <> [] ->
  rows_fit tb ->
  NoDup (cell 0 <$> rows tb) ->
  exists known_nodes,
    fst (get_known_nodes_metadata self w) = Return known_nodes /\
    (forall r, r ∈ rows tb ->
       known_nodes !! cell 0 r = Some (record_of (columns tb) r) /\
       forall i c, columns tb !! i = Some c ->
                   record_of (columns tb) r !! c = r !! i) /\
    (forall k, k ∉ cell 0 <$> rows tb -> known_nodes !! k = None) /\
    (rows tb = [] -> known_nodes = ∅).
Proof.
  intros Hopen Hfile Htb NDc Hcols Hfit NDk.
  eexists. split.
  { unfold get_known_nodes_metadata.
    rewrite (proj1 (reader_run _ _ _ w d Hopen Hfile)).
    rewrite select_all_run, Htb. cbn [fst description fetched].
    by apply known_nodes_loop. }
  split; [|split].
  - intros r Hr. split.
    + by apply known_nodes_lookup.
    + intros i c Hc. apply record_of_lookup; [done| |done].
      by apply (proj1 (Forall_forall _ _) Hfit).
  - intros k Hk. by rewrite known_nodes_other.
  - by intros ->.
Qed.

(** ** Writing a state and reading it back *)

Lemma previous_states_run
    (self : crawler_node_storage) (limit : Z) (w : world)
    (d : database) (tb : table) (i : nat) :
  _db_filepath self ∉ unopenable w ->
  files w !! _db_filepath self = Some d ->
  d !! SQLiteForgetfulNodeStorage_STATE_DB_NAME = Some tb ->
  index_of "updated" (columns tb) = Some i ->
  fst (get_previous_states_metadata self limit w)
  = if is_int64 limit
    then fold_each (limit_rows limit (order_desc i (rows tb))) []
           (fun states_dict_list row =>
              match state_info_of (columns tb) row with
              | Raise e => Raise e
              | Return state_info => Return (states_dict_list ++ [state_info])
              end)
    else Raise (IntegrityError DatatypeMismatch).
Proof.
  intros Hopen Hfile Htb Hupd. unfold get_previous_states_metadata.
  rewrite (proj1 (reader_run _ _ _ w d Hopen Hfile)).
  rewrite select_ordered_run, Htb, Hupd. cbn [fst].
  by destruct (is_int64 limit).
Qed.

Lemma limit_rows_all (limit : Z) (rs : list row) :
  limit_covers limit (length rs) -> limit_rows limit rs = rs.
Proof.
  intros [neg|ge]; unfold limit_rows.
  - destruct (Z.ltb_spec limit 0); [done|lia].
  - destruct (Z.ltb_spec limit 0); [done|]. apply take_ge. lia.
Qed.

(** The row written for a state converts to the state's details, when
    [maya] reads its own RFC 3339 text back. *)
Lemma state_info_of_written (st : fleet_state) :
  from_rfc3339 (rfc3339 (updated st)) = Some (updated st) ->
  state_info_of state_columns (db_row st) = Return (state_details st).
Proof.
  intros Hrt. unfold state_info_of, state_columns, db_row, state_details.
  cbn. by rewrite Hrt.
Qed.

Lemma other_rows_survive (n : string) (r : row) (rs : list row) :
  cell 0 r = VText n ->
  filter (fun r' => same_key (Some 0%nat) r r' = false) rs
  = rows_of_other_nicknames n rs.
Proof.
  intros E. unfold rows_of_other_nicknames.
  apply list_filter_iff. intros r'. by apply same_key_text.
Qed.


(** ** The order of the states that come back *)

Lemma written_states_loop (l : list fleet_state) :
  Forall reads_back l ->
  forall acc,
    fold_each (db_row <$> l) acc (fun states_dict_list row =>
      match state_info_of state_columns row with
      | Raise e => Raise e
      | Return state_info => Return (states_dict_list ++ [state_info])
      end) = Return (acc ++ (state_details <$> l)).
Proof.
  induction 1 as [|st l Hst Hl IH]; intros acc.
  - simpl. by rewrite app_nil_r.
  - rewrite fmap_cons. cbn [fold_each].
    rewrite (state_info_of_written st Hst), IH, fmap_cons.
    by rewrite <- app_assoc.
Qed.

Lemma limit_rows_fmap {A} (f : A -> row) (limit : Z) (l : list A) :
  limit_rows limit (f <$> l)
  = f <$> (if limit <? 0 then l else take (Z.to_nat limit) l).
Proof. unfold limit_rows. destruct (limit <? 0); [done|]. by rewrite fmap_take. Qed.


Lemma states_loop_raises (cols : list string) (sel : list row) (r : row) :
  r ∈ sel ->
  is_return (state_info_of cols r) = false ->
  forall acc,
    is_return
      (fold_each sel acc (fun states_dict_list row =>
         match state_info_of cols row with
         | Raise e => Raise e
         | Return state_info => Return (states_dict_list ++ [state_info])
         end)) = false.
Proof.
  intros Hin Hbad. induction sel as [|r' sel IH]; intros acc.
  - by apply elem_of_nil in Hin.
  - simpl. apply elem_of_cons in Hin as [->|Hin].
    + by destruct (state_info_of cols r').
    + destruct (state_info_of cols r'); [by apply IH|done].
Qed.

(** X5. One row of the fleet-state table that does not convert (its
    [updated] is NULL, or text that [maya] does not read) makes the whole
    call raise, when the limit does not cut the table short: no partial list
    is returned. *)
Theorem unreadable_state_fails_the_call
    (self : crawler_node_storage) (limit : Z) (w : world)
    (d : database) (tb : table) (i : nat) (r : row) :
  _db_filepath self ∉ unopenable w ->
  files w !! _db_filepath self = Some d ->
  d !! SQLiteForgetfulNodeStorage_STATE_DB_NAME = Some tb ->
  index_of "updated" (columns tb) = Some i ->
  r ∈ rows tb ->
  is_return (state_info_of (columns tb) r) = false ->
  limit_covers limit (length (rows tb)) ->
  is_return (fst (get_previous_states_metadata self limit w)) = false.
Proof.
  intros Hopen Hfile Htb Hupd Hr Hbad Hlimit.
  rewrite (previous_states_run self limit w d tb i) by done.
  destruct (is_int64 limit); [|done].
  apply (states_loop_raises _ _ r); [|done].
  rewrite limit_rows_all.
  - by rewrite order_desc_Permutation.
  - assert (length (order_desc i (rows tb)) = length (rows tb)) as ->
      by apply Permutation_length, order_desc_Permutation.
    done.
Qed.

End ReaderRuns.

(* ===================================================================== *)
(** * More about the store                                                *)
(* ===================================================================== *)

Section StoreWrites.
Context {sqlite : Builtins} {maya : Maya} {base : SQLiteForgetfulNodeStorage}.


(** X7. [store_state_metadata] writes to one table: whether it returns or
    raises, every table but the fleet-state table, and every field of the
    base classes, is as before. *)
Theorem store_state_metadata_touches_one_table
    (st : fleet_state) (s : store base_fields) :
  fields (snd (store_state_metadata st s)) = fields s /\
  forall t, t <> STATE_DB_NAME ->
            db (snd (store_state_metadata st s)) !! t = db s !! t.
Proof.
  unfold store_state_metadata, __write_state_metadata, with_db_conn, bind,
    db_conn_execute, execute, ret. cbn.
  destruct (db s !! STATE_DB_NAME) as [tb|]; cbn; [|done].
  destruct (length (columns tb)) as [|[|[|[|[|[|n]]]]]]; cbn; try done.
  split; [done|]. intros t ne. by rewrite lookup_insert_ne.
Qed.

Lemma written_rows (st : fleet_state) (s : store base_fields) :
  has_state_table s ->
  state_rows (snd (store_state_metadata st s))
  = rows_of_other_nicknames (nickname st) (state_rows s) ++ [db_row st].
Proof.
  intros (tb & Htb & Hcols & Hpk).
  rewrite (store_state_metadata_replaces st s tb Htb Hcols).
  unfold state_rows. cbn [snd db]. rewrite lookup_insert_eq, Htb, Hpk.
  cbn [rows]. unfold replace_row.
  by rewrite (other_rows_survive (nickname st)).
Qed.

(** X8. The nickname stays a key: if no two rows of the fleet-state table
    carry the same nickname before a write, none do after it. *)
Theorem nicknames_stay_distinct (st : fleet_state) (s : store base_fields) :
  has_state_table s ->
  NoDup (cell 0 <$> state_rows s) ->
  NoDup (cell 0 <$> state_rows (snd (store_state_metadata st s))).
Proof.
  intros Hs ND. rewrite written_rows by done.
  rewrite fmap_app. apply NoDup_app. split; [|split].
  - eapply sublist_NoDup; [exact ND|].
    apply fmap_sublist, sublist_filter.
  - intros k Hk. apply list_elem_of_fmap in Hk as (r & -> & Hr).
    apply list_elem_of_filter in Hr as [ne _].
    intros Hin. apply list_elem_of_singleton in Hin. by apply ne.
  - apply NoDup_singleton.
Qed.

Lemma no_row_of_a_new_nickname (n : string) (rs : list row) :
  VText n ∉ cell 0 <$> rs -> rows_of_other_nicknames n rs = rs.
Proof.
  unfold rows_of_other_nicknames. induction rs as [|r rs IH]; intros Hn; [done|].
  rewrite fmap_cons in Hn. apply not_elem_of_cons in Hn as [ne Hn].
  rewrite filter_cons_True by (intros E; by apply ne). f_equal. by apply IH.
Qed.

Lemma fold_replace_fresh (sts : list fleet_state) :
  forall rs : list row,
    NoDup (nickname <$> sts) ->
    Forall (fun st => VText (nickname st) ∉ cell 0 <$> rs) sts ->
    fold_left (fun rs st => replace_row (Some 0%nat) (db_row st) rs) sts rs
    = rs ++ (db_row <$> sts).
Proof.
  induction sts as [|st sts IH]; intros rs ND Hfresh.
  - by rewrite app_nil_r.
  - rewrite fmap_cons in ND. apply NoDup_cons in ND as [Hst ND].
    apply Forall_cons in Hfresh as [Hnew Hfresh].
    assert (replace_row (Some 0%nat) (db_row st) rs = rs ++ [db_row st]) as E.
    { unfold replace_row. f_equal.
      rewrite (other_rows_survive (nickname st)) by done.
      by apply no_row_of_a_new_nickname. }
    cbn [fold_left]. rewrite E, IH; [by rewrite <- app_assoc|done|].
    apply Forall_forall. intros st' Hst'.
    rewrite fmap_app. intros Hin. apply elem_of_app in Hin as [Hin|Hin].
    + by apply (proj1 (Forall_forall _ _) Hfresh st').
    + apply list_elem_of_singleton in Hin. simpl in Hin. inversion Hin as [Hn].
      apply Hst. rewrite <- Hn. apply list_elem_of_fmap. by exists st'.
Qed.

(** X9. States of nicknames that differ from each other and from those
    already stored: each write adds a row, and afterwards the table holds
    the rows that were there followed by the rows of the states, in the
    order they were written. *)
Theorem new_nicknames_are_appended
    (sts : list fleet_state) (s : store base_fields) :
  has_state_table s ->
  NoDup (nickname <$> sts) ->
  Forall (fun st => VText (nickname st) ∉ cell 0 <$> state_rows s) sts ->
  exists s',
    for_each sts store_state_metadata s = (Return tt, s') /\
    state_rows s' = state_rows s ++ (db_row <$> sts).
Proof.
  intros Hs ND Hfresh.
  destruct (writes_fold sts s Hs) as (s' & R & _ & E).
  exists s'. split; [done|]. rewrite E. by apply fold_replace_fresh.
Qed.

(** X10. [init_db_tables] and then a first write, with a base class whose
    own [init_db_tables] returns and leaves the fleet-state table alone:
    both succeed, and whatever the table held before, it now holds the row
    of the written state and nothing else. *)
Theorem first_write_after_init (st : fleet_state) (s : store base_fields) :
  (forall s0, exists s1,
      super_init_db_tables s0 = (Return tt, s1) /\
      db s1 !! STATE_DB_NAME = db s0 !! STATE_DB_NAME) ->
  exists s1 s2,
    init_db_tables s = (Return tt, s1) /\
    state_rows s1 = [] /\
    store_state_metadata st s1 = (Return tt, s2) /\
    state_rows s2 = [db_row st].
Proof.
  intros Hbase.
  unfold init_db_tables, bind, with_db_conn, db_conn_execute, execute, ret.
  simpl. rewrite lookup_delete_eq. simpl. rewrite insert_delete_eq.
  destruct (Hbase (Store (<[STATE_DB_NAME := Table state_columns (Some 0%nat) []]>
                             (db s)) (fields s))) as (s1 & R & Hkeep).
  cbn [db] in Hkeep. rewrite lookup_insert_eq in Hkeep.
  assert (has_state_table s1) as Hs1 by (eexists; by repeat split).
  assert (state_rows s1 = []) as Hrows by (unfold state_rows; by rewrite Hkeep).
  exists s1, (snd (store_state_metadata st s1)).
  split; [exact R|]. split; [done|]. split.
  - rewrite (store_state_metadata_replaces st s1 _ Hkeep eq_refl). done.
  - rewrite written_rows by done. by rewrite Hrows.
Qed.

End StoreWrites.

(* ===================================================================== *)
(** * More about the historical queries                                   *)
(* ===================================================================== *)

Section QueryRuns.

Lemma fold_last_point_some (ps : list point) (b : point) :
  is_Some (fold_left (fun best p =>
                        match best with
                        | None => Some p
                        | Some b => if time b <=? time p then Some p else Some b
                        end) ps (Some b)).
Proof.
  revert b. induction ps as [|p ps IH]; intros b; simpl; [eauto|].
  destruct (time b <=? time p); apply IH.
Qed.

Lemma last_point_some (ps : list point) : ps <> [] -> is_Some (last_point ps).
Proof.
  destruct ps as [|p ps]; [done|]. intros _. apply fold_last_point_some.
Qed.

Lemma length_omap_all {A B} (f : A -> option B) (l : list A) :
  Forall (fun x => is_Some (f x)) l -> length (omap f l) = length l.
Proof.
  induction 1 as [|x l [y Hy] Hl IH]; [done|].
  cbn. rewrite Hy. cbn. f_equal. exact IH.
Qed.

(** LAST keeps one value for every staker of the bucket. *)
Lemma one_value_per_staker (ps : list point) :
  length (last_per_staker ps) = length (remove_dups (staker_address <$> ps)).
Proof.
  unfold last_per_staker. apply length_omap_all.
  apply Forall_forall. intros s Hs.
  apply elem_of_remove_dups, list_elem_of_fmap in Hs as (p & -> & Hp).
  apply fmap_is_Some, last_point_some.
  intros E. assert (p ∈ filter (fun p0 => staker_address p0 = staker_address p) ps)
    as Hin by (by apply list_elem_of_filter).
  rewrite E in Hin. by apply elem_of_nil in Hin.
Qed.

Lemma observed_has_stakers (series : list point) (d : Z) :
  observed series d -> (0 < length (stakers_seen series d))%nat.
Proof.
  unfold observed, stakers_seen. destruct (day_points series d) as [|p ps]; [done|].
  intros _.
  assert (staker_address p ∈ remove_dups (staker_address <$> p :: ps)) as Hin.
  { apply elem_of_remove_dups. rewrite fmap_cons. apply list_elem_of_here. }
  destruct (remove_dups _); [by apply elem_of_nil in Hin|simpl; lia].
Qed.

(** The staker dict on an observed day of the window. *)
Lemma count_of_observed_day
    (today : datetime_t) (days d : Z) (series : list point) :
  in_window today days d -> observed series d ->
  odict_get (midnight d)
    (fold_left keep_truthy
       (evaluate series (Query COUNT_staker_address
                               (midnight (toordinal today - (days - 1)))
                               (midnight (toordinal today + 1)))) [])
  = Some (PyInt (Z.of_nat (length (stakers_seen series d)))).
Proof.
  intros Hd Hobs. rewrite lookup_window_day by done.
  cbn [apply_aggregate]. unfold count_values.
  rewrite one_value_per_staker. fold (stakers_seen series d).
  pose proof (observed_has_stakers _ _ Hobs) as Hpos. cbn [truthy].
  destruct (Z.eqb_spec (Z.of_nat (length (stakers_seen series d))) 0);
    [lia|done].
Qed.

(** X11. On dates that exist [get_historical_num_stakers_over_range]
    returns a dict in which every day of the window on which samples were
    observed has an entry, the number of distinct stakers seen that day; a
    day of the window without samples has none; and there is no entry under
    any other key. *)
Theorem stakers_by_day (today : datetime_t) (days : Z) (c : influxdb) :
  representable today days ->
  exists result,
    fst (get_historical_num_stakers_over_range today days c) = Return result /\
    (forall d, in_window today days d -> observed (series c) d ->
       odict_get (midnight d) result
       = Some (PyInt (Z.of_nat (length (stakers_seen (series c) d))))) /\
    (forall d, in_window today days d -> ~ observed (series c) d ->
       odict_get (midnight d) result = None) /\
    (forall k v, odict_get k result = Some v ->
       exists d, k = midnight d /\ in_window today days d).
Proof.
  intros Hr. rewrite num_stakers_run by done. cbv zeta. cbn [fst].
  eexists. split; [reflexivity|].
  change (fun acc r => if truthy r.2 then odict_set r.1 r.2 acc else acc)
    with keep_truthy.
  split; [|split].
  - intros d Hd Hobs. by apply count_of_observed_day.
  - intros d Hd Hno. rewrite lookup_window_day by done.
    cbn [apply_aggregate]. fold (daily_stakers (series c) d).
    by destruct (unobserved_day_has_no_aggregate _ _ Hno) as [_ ->].
  - intros k v Hk. by apply (lookup_is_a_window_day _ _ _ _ _ _ Hk).
Qed.

Lemma add_days_out_of_range (T n : Z) :
  ~ (0 < T + n <= MAXORDINAL) ->
  datetime_add (Datetime T 0 0 0 0) (Timedelta n 0 0) = Raise OverflowError.
Proof.
  intros Hr. unfold datetime_add, time_of_day.
  cbn [toordinal hour minute second microsecond td_days td_seconds td_microseconds].
  change (((0 * 60 + 0) * 60 + 0) * 1000000 + 0 + 0 * 1000000 + 0) with 0.
  change (0 / us_per_day) with 0. rewrite Z.add_0_r.
  destruct (Z.ltb_spec 0 (T + n)); [|done].
  destruct (Z.leb_spec (T + n) MAXORDINAL); [lia|done].
Qed.

(** X12. When the first day of the window, or tomorrow, lies outside the
    years 1..9999, both readers raise [OverflowError] before any query is
    sent: the client is as it was. *)
Theorem out_of_range_dates_raise (today : datetime_t) (days : Z) (c : influxdb) :
  1 <= toordinal today <= MAXORDINAL ->
  out_of_range today days ->
  get_historical_locked_tokens_over_range today days c = (Raise OverflowError, c) /\
  get_historical_num_stakers_over_range today days c = (Raise OverflowError, c).
Proof.
  intros Ht Hout.
  unfold get_historical_locked_tokens_over_range,
    get_historical_num_stakers_over_range, bind, lift.
  unfold timedelta at 1 3.
  destruct (Z.leb_spec (Z.abs (days - 1)) 999999999) as [small|big]; [|done].
  unfold datetime_sub. cbn [td_days td_seconds td_microseconds].
  change (- 0) with 0.
  destruct (decide (0 < toordinal today + - (days - 1) <= MAXORDINAL)) as [inr|outr].
  - rewrite add_days_at_midnight by done.
    assert (toordinal today = MAXORDINAL) as Hlast.
    { destruct Hout as [lo|[hi|E]]; [lia|lia|done]. }
    rewrite timedelta_days by done.
    rewrite add_days_out_of_range by lia. done.
  - by rewrite add_days_out_of_range.
Qed.

Lemma odict_set_fresh (k : Z) (v : number) (d : ordered_dict) :
  k ∉ d.*1 -> odict_set k v d = d ++ [(k, v)].
Proof.
  induction d as [|[k' v'] d IH]; intros Hk; [done|].
  rewrite fmap_cons in Hk. apply not_elem_of_cons in Hk as [ne Hk]. simpl in ne.
  simpl. destruct (Z.eqb_spec k' k); [congruence|]. by rewrite IH.
Qed.

(** Over rows of distinct keys the loop is a filter. *)
Lemma loop_is_filter (rs : list (Z * number)) :
  forall acc, NoDup (acc.*1 ++ rs.*1) ->
  fold_left keep_truthy rs acc
  = acc ++ filter (fun r => truthy (snd r) = true) rs.
Proof.
  induction rs as [|[k v] rs IH]; intros acc ND.
  - by rewrite app_nil_r.
  - rewrite fmap_cons in ND. cbn [fold_left]. unfold keep_truthy at 2. cbn [fst snd].
    destruct (truthy v) eqn:Tr.
    + rewrite filter_cons_True by done.
      assert (k ∉ acc.*1) as Hk.
      { apply NoDup_app in ND as (_ & Hdisj & _). intros Hin.
        apply (Hdisj k Hin). apply list_elem_of_here. }
      rewrite odict_set_fresh by done. rewrite IH.
      * by rewrite <- app_assoc.
      * rewrite fmap_app, <- app_assoc. done.
    + rewrite filter_cons_False by (cbn; congruence). apply IH.
      eapply sublist_NoDup; [exact ND|].
      apply sublist_app; [done|]. by apply sublist_cons.
Qed.

Lemma seq_increasing (a n : nat) : StronglySorted lt (seq a n).
Proof.
  revert a. induction n as [|n IH]; intros a; simpl; constructor; [apply IH|].
  apply Forall_seq. lia.
Qed.

Lemma StronglySorted_sublist {A} (R : relation A) (l1 l2 : list A) :
  l1 `sublist_of` l2 -> StronglySorted R l2 -> StronglySorted R l1.
Proof.
  induction 1 as [|x l1 l2 Hsub IH|x l1 l2 Hsub IH]; intros S; [done|..].
  - apply StronglySorted_inv in S as [S Hx]. constructor; [by apply IH|].
    apply Forall_forall. intros y Hy.
    apply (proj1 (Forall_forall _ _) Hx).
    eapply elem_of_submseteq; [exact Hy|by apply sublist_submseteq].
  - apply StronglySorted_inv in S as [S _]. by apply IH.
Qed.

Lemma buckets_increasing (q : influxql) : StronglySorted Z.lt (buckets q).
Proof.
  unfold buckets. destruct (time_ge q <? time_lt q); [|constructor].
  eapply StronglySorted_fmap; [|apply seq_increasing]. intros i j. simpl. lia.
Qed.

Lemma window_buckets_length (a : aggregate) (today : datetime_t) (days : Z) :
  length (buckets (Query a (midnight (toordinal today - (days - 1)))
                          (midnight (toordinal today + 1))))
  = Z.to_nat days.
Proof.
  unfold buckets. cbn [time_ge time_lt].
  set (T := toordinal today).
  assert (day_of (midnight (T - (days - 1))) = T - (days - 1)) as E1.
  { unfold day_of, midnight. apply Z.div_mul. done. }
  assert (day_of (midnight (T + 1) - 1) = T) as E2.
  { unfold day_of, midnight, us_per_day. Z.div_mod_to_equations. lia. }
  rewrite E1, E2.
  destruct (Z.ltb_spec (midnight (T - (days - 1))) (midnight (T + 1))) as [lt|ge].
  - rewrite length_fmap, length_seq. f_equal. lia.
  - assert (days <= 0) by (unfold midnight, us_per_day in ge; lia).
    simpl. lia.
Qed.

Lemma loop_over_window
    (a : aggregate) (today : datetime_t) (days : Z) (series : list point) :
  let result :=
    fold_left keep_truthy
      (evaluate series (Query a (midnight (toordinal today - (days - 1)))
                                (midnight (toordinal today + 1)))) [] in
  StronglySorted Z.lt result.*1 /\ (length result <= Z.to_nat days)%nat.
Proof.
  cbv zeta. set (q := Query a _ _).
  assert (NoDup (evaluate series q).*1) as ND.
  { rewrite evaluate_keys. apply NoDup_fmap_2; [|apply buckets_NoDup].
    intros d1 d2. apply midnight_inj. }
  rewrite loop_is_filter by done. cbn [app]. split.
  - apply (StronglySorted_sublist _ _ (evaluate series q).*1).
    + apply fmap_sublist, sublist_filter.
    + rewrite evaluate_keys.
      eapply StronglySorted_fmap; [|apply buckets_increasing].
      intros d1 d2. unfold midnight, us_per_day. lia.
  - etrans; [apply length_filter|].
    unfold evaluate. rewrite length_fmap. unfold q.
    by rewrite window_buckets_length.
Qed.

(** X13. On dates that exist both readers return their days in
    chronological order, each day once, and at most [days] of them; for
    [days <= 0] both dicts are empty. *)
Theorem dicts_are_chronological (today : datetime_t) (days : Z) (c : influxdb) :
  representable today days ->
  exists locked_tokens_dict num_stakers_dict,
    fst (get_historical_locked_tokens_over_range today days c)
    = Return locked_tokens_dict /\
    fst (get_historical_num_stakers_over_range today days c)
    = Return num_stakers_dict /\
    StronglySorted Z.lt locked_tokens_dict.*1 /\
    StronglySorted Z.lt num_stakers_dict.*1 /\
    (length locked_tokens_dict <= Z.to_nat days)%nat /\
    (length num_stakers_dict <= Z.to_nat days)%nat /\
    (days <= 0 -> locked_tokens_dict = [] /\ num_stakers_dict = []).
Proof.
  intros Hr. rewrite locked_tokens_run, num_stakers_run by done.
  cbv zeta. cbn [fst]. do 2 eexists.
  split; [reflexivity|]. split; [reflexivity|].
  change (fun acc r => if truthy r.2 then odict_set r.1 r.2 acc else acc)
    with keep_truthy.
  destruct (loop_over_window SUM_locked_stake today days (series c)) as [S1 L1].
  destruct (loop_over_window COUNT_staker_address today days (series c)) as [S2 L2].
  repeat split; try done.
  - apply length_zero_iff_nil. lia.
  - apply length_zero_iff_nil. lia.
Qed.

(** X14. The two dicts of one moment agree on their days: every day that
    has an entry of locked tokens also has an entry in the dict of staker
    counts, and that count is at least one. *)
Theorem locked_days_have_staker_counts
    (today : datetime_t) (days : Z) (c : influxdb) :
  representable today days ->
  exists locked_tokens_dict num_stakers_dict,
    fst (get_historical_locked_tokens_over_range today days c)
    = Return locked_tokens_dict /\
    fst (get_historical_num_stakers_over_range today days c)
    = Return num_stakers_dict /\
    forall k v, odict_get k locked_tokens_dict = Some v ->
      exists n, odict_get k num_stakers_dict = Some (PyInt n) /\ 0 < n.
Proof.
  intros Hr. rewrite locked_tokens_run, num_stakers_run by done.
  cbv zeta. cbn [fst]. do 2 eexists.
  split; [reflexivity|]. split; [reflexivity|].
  change (fun acc r => if truthy r.2 then odict_set r.1 r.2 acc else acc)
    with keep_truthy.
  intros k v Hk.
  destruct (lookup_is_a_window_day _ _ _ _ _ _ Hk) as (d & -> & Hd).
  rewrite lookup_window_day in Hk by done. cbn [apply_aggregate] in Hk.
  assert (observed (series c) d) as Hobs.
  { unfold observed. intros E. rewrite E in Hk. discriminate. }
  exists (Z.of_nat (length (stakers_seen (series c) d))). split.
  - by apply count_of_observed_day.
  - pose proof (observed_has_stakers _ _ Hobs). lia.
Qed.

End QueryRuns.

(* ===================================================================== *)
(** * The daily locked stake                                              *)
(* ===================================================================== *)

Section LockedTokens.

(** LAST picks the last observation, and nothing else is one. *)
Lemma last_point_snoc (ps : list point) (q : point) :
  last_point (ps ++ [q])
  = match last_point ps with
    | None => Some q
    | Some b => if time b <=? time q then Some q else Some b
    end.
Proof. unfold last_point. by rewrite fold_left_app. Qed.

Lemma last_observed_bounds (ps : list point) (p : point) :
  last_observed ps p -> Forall (fun q => time q <= time p) ps.
Proof.
  intros (before & after & -> & Hb & Ha).
  apply Forall_app. split; [done|]. constructor; [lia|].
  eapply Forall_impl; [exact Ha|]. intros q. simpl. lia.
Qed.

Lemma last_point_is_last_observed (ps : list point) (p : point) :
  last_point ps = Some p -> last_observed ps p.
Proof.
  revert p. induction ps as [|q ps IH] using rev_ind; intros p; [done|].
  rewrite last_point_snoc.
  destruct (last_point ps) as [b|] eqn:E.
  - specialize (IH b eq_refl).
    destruct (Z.leb_spec (time b) (time q)) as [le|gt]; intros [= <-].
    + exists ps, []. split; [done|]. split; [|constructor].
      eapply Forall_impl; [exact (last_observed_bounds _ _ IH)|].
      intros r. simpl. lia.
    + destruct IH as (before & after & -> & Hb & Ha).
      exists before, (after ++ [q]). split; [by rewrite <- app_assoc|].
      split; [done|]. apply Forall_app. split; [done|]. by repeat constructor.
  - intros [= <-]. destruct ps as [|r ps].
    + exists [], []. by repeat constructor.
    + destruct (last_point_some (r :: ps)) as [b Hb]; [done|]. congruence.
Qed.

Lemma last_observed_is_last_point (ps : list point) (p : point) :
  last_observed ps p -> last_point ps = Some p.
Proof.
  intros (before & after & -> & Hb & Ha).
  assert (last_point (before ++ [p]) = Some p) as Hp.
  { rewrite last_point_snoc. destruct (last_point before) as [b|] eqn:E; [|done].
    apply last_point_is_last_observed in E as (b1 & b2 & -> & _ & _).
    assert (time b <= time p) as Hle.
    { apply (proj1 (Forall_forall _ _) Hb). set_solver. }
    by destruct (Z.leb_spec (time b) (time p)); [|lia]. }
  clear Hb. change (p :: after) with ([p] ++ after). rewrite app_assoc.
  induction after as [|q after IH] using rev_ind; [by rewrite app_nil_r|].
  apply Forall_app in Ha as [Ha Hq]. apply Forall_inv in Hq. simpl in Hq.
  rewrite app_assoc, last_point_snoc, IH by done.
  by destruct (Z.leb_spec (time p) (time q)); [lia|].
Qed.

Lemma samples_of_day_points (series : list point) (s : string) (d : Z) :
  samples_of series s d = filter (fun p => staker_address p = s) (day_points series d).
Proof. unfold samples_of, day_points. by rewrite list_filter_filter. Qed.

Lemma length_omap_le {A B} (f : A -> option B) (l : list A) :
  (length (omap f l) <= length l)%nat.
Proof.
  induction l as [|x l IH]; [done|]. cbn.
  destruct (f x); cbn; lia.
Qed.

Lemma omap_Forall2 {A B} (f : A -> option B) (l : list A) (ys : list B) :
  Forall2 (fun x y => f x = Some y) l ys <-> omap f l = ys /\ length ys = length l.
Proof.
  split.
  - induction 1 as [|x y l ys Hxy _ [IH1 IH2]]; [done|].
    cbn. rewrite Hxy. cbn. by rewrite IH1, IH2.
  - revert ys. induction l as [|x l IH]; intros ys [E L].
    + destruct ys; [constructor|done].
    + cbn in E. destruct (f x) as [y|] eqn:Hx; cbn in E.
      * subst ys. constructor; [done|]. apply IH. split; [done|].
        cbn in L. lia.
      * subst ys. pose proof (length_omap_le f l) as Hle. cbn in L. lia.
Qed.

(** The values InfluxDB's LAST keeps in a day's bucket are the
    last-observed locked stakes of that day, and these are the only ones. *)
Lemma last_observed_stakes_unique (series : list point) (d : Z) (values : list float) :
  last_observed_stakes series d values
  <-> values = last_per_staker (day_points series d).
Proof.
  unfold last_observed_stakes, last_per_staker, stakers_seen.
  set (f := fun s => locked_stake <$>
                     last_point (filter (fun p => staker_address p = s)
                                        (day_points series d))).
  assert (forall s v,
            (exists p, last_observed (samples_of series s d) p /\ v = locked_stake p)
            <-> f s = Some v) as Hf.
  { intros s v. unfold f. rewrite samples_of_day_points. split.
    - intros (p & Hp & ->). by rewrite (last_observed_is_last_point _ _ Hp).
    - destruct (last_point _) as [p|] eqn:E; [|done]. intros [= <-].
      exists p. split; [|done]. by apply last_point_is_last_observed. }
  split.
  - intros H. symmetry. apply (omap_Forall2 f).
    eapply Forall2_impl; [exact H|]. intros s v. apply Hf.
  - intros ->.
    eapply Forall2_impl; [|intros s v; apply Hf].
    apply omap_Forall2. split; [done|].
    apply (one_value_per_staker (day_points series d)).
Qed.

Lemma add_up_fold (total : float) (values : list float) :
  add_up total values = fold_left PrimFloat.add values total.
Proof. revert total. induction values as [|v values IH]; intros; [done|apply IH]. Qed.

Lemma total_of_sum_values (values : list float) :
  sum_values values = match total_of values with
                      | Some total => PyFloat total
                      | None => PyNone
                      end.
Proof. destruct values as [|v rest]; [done|]. cbn. by rewrite add_up_fold. Qed.

(** What the dict of locked tokens holds for a day of the window, in terms
    of the day's last-observed locked stakes. *)
Lemma locked_tokens_of_window_day
    (today : datetime_t) (days d : Z) (series : list point) (values : list float) :
  in_window today days d ->
  last_observed_stakes series d values ->
  odict_get (midnight d)
    (fold_left keep_truthy
       (evaluate series (Query SUM_locked_stake
                               (midnight (toordinal today - (days - 1)))
                               (midnight (toordinal today + 1)))) [])
  = match total_of values with
    | Some total => if PrimFloat.eqb total 0 then None else Some (PyFloat total)
    | None => None
    end.
Proof.
  intros Hd Hv. apply last_observed_stakes_unique in Hv as ->.
  rewrite lookup_window_day by done. cbn [apply_aggregate].
  rewrite total_of_sum_values.
  destruct (total_of _) as [total|]; [|done]. cbn [truthy].
  by destruct (PrimFloat.eqb total 0).
Qed.


End LockedTokens.

(* ===================================================================== *)
(** * The store and the readers on concrete inputs                        *)
(* ===================================================================== *)

(** [clear(metadata=True, certificates=False)] on the populated store: it
    raises, and the fleet-state rows are still there. *)
Example clear_metadata_on_populated_store :
  clear (sqlite := Sample.sqlite) (base := Sample.base) true false Sample.populated
  = (Raise (OperationalError SyntaxError), Sample.populated) /\
  state_rows Sample.populated = [Sample.older_state_row; Sample.state_row].
Proof. split; vm_compute; reflexivity. Qed.

(** Against C2 as stated: a second [init_db_tables] on the populated store
    returns normally, and the two fleet-state rows that were stored are
    gone. *)
Lemma init_db_tables_loses_fleet_states :
  state_rows Sample.populated = [Sample.older_state_row; Sample.state_row] /\
  fst (init_db_tables (sqlite := Sample.sqlite) (base := Sample.base) Sample.populated)
  = Return tt /\
  state_rows
    (snd (init_db_tables (sqlite := Sample.sqlite) (base := Sample.base)
            Sample.populated)) = [].
Proof. repeat split; vm_compute; reflexivity. Qed.

Lemma populated_has_state_table : has_state_table Sample.populated.
Proof.
  exists (Table state_columns (Some 0%nat) [Sample.older_state_row; Sample.state_row]).
  repeat split; vm_compute; reflexivity.
Defined.

(** C3 on the populated store: the state "Cyan Star" written twice. The
    one row under that nickname is the second write's, and the row of "Red
    Moon" is still there. *)
Lemma repeated_writes_witness :
  exists s',
    for_each [Sample.first_state; Sample.updated_state]
      (store_state_metadata (sqlite := Sample.sqlite) (base := Sample.base))
      Sample.populated = (Return tt, s') /\
    has_state_table s' /\
    rows_of_nickname "Cyan Star" (state_rows s')
    = [[VText "Cyan Star"; VText "%"; VText "4F3D21"; VText "red";
        VText "2019-11-01T12:05:00.0Z"]] /\
    rows_of_other_nicknames "Cyan Star" (state_rows s')
    = [[VText "Red Moon"; VText "%"; VText "4F3D21"; VText "red";
        VText "2019-11-01T11:00:00.0Z"]].
Proof.
  apply (repeated_writes_keep_one_row (sqlite := Sample.sqlite)
           (base := Sample.base) "Cyan Star" Sample.first_state
           [Sample.updated_state] Sample.populated).
  - exact populated_has_state_table.
  - repeat constructor.
Defined.

(** [clear(metadata=False, certificates=True)] on the populated store: the
    certificate of 0xAAA is gone, and the node row, the two fleet-state rows
    and the teacher are where they were. *)
Example clear_certificates_on_populated_store :
  fields Sample.populated = [("0xAAA", "-----BEGIN CERTIFICATE-----")] /\
  clear (sqlite := Sample.sqlite) (base := Sample.base) false true Sample.populated
  = (Return tt, Store Sample.populated_db []) /\
  state_rows (Store (F := list (string * string)) Sample.populated_db [])
  = [Sample.older_state_row; Sample.state_row].
Proof. repeat split; vm_compute; reflexivity. Qed.

Lemma populated_world_wf : wf_world Sample.populated_world.
Proof.
  intros c [path Hc]. unfold Sample.populated_world in *. simpl in *.
  destruct c as [|c]; [lia|].
  rewrite lookup_singleton_ne in Hc by done. discriminate.
Defined.

(** C9 in the sample process, where [db_conn] is connection 0. *)
Lemma readers_own_connection_witness :
  own_connection (_db_filepath Sample.the_storage)
    (get_known_nodes_metadata (sqlite := Sample.sqlite) (base := Sample.base)
       Sample.the_storage) Sample.populated_world /\
  own_connection (_db_filepath Sample.the_storage)
    (get_previous_states_metadata (sqlite := Sample.sqlite) (maya := Sample.maya)
       (base := Sample.base) Sample.the_storage 5) Sample.populated_world.
Proof.
  apply (readers_use_their_own_connection (sqlite := Sample.sqlite)
           (maya := Sample.maya) (base := Sample.base)
           Sample.the_storage 5 Sample.populated_world).
  exact populated_world_wf.
Defined.

(** The path on which the query raises: the table is missing, the
    exception leaves the reader, and its connection 1 is closed all the
    same; connection 0 stays open. *)
Example reader_closes_when_the_query_raises :
  fst (get_previous_states_metadata (sqlite := Sample.sqlite) (maya := Sample.maya)
         (base := Sample.base) Sample.the_storage 5 Sample.bare_world)
  = Raise (OperationalError (NoSuchTable "fleet_state")) /\
  connections
    (snd (get_previous_states_metadata (sqlite := Sample.sqlite)
            (maya := Sample.maya) (base := Sample.base)
            Sample.the_storage 5 Sample.bare_world))
  = connections Sample.bare_world /\
  last (trace
          (snd (get_previous_states_metadata (sqlite := Sample.sqlite)
                  (maya := Sample.maya) (base := Sample.base)
                  Sample.the_storage 5 Sample.bare_world)))
  = Some (Closed 1).
Proof. repeat split; vm_compute; reflexivity. Qed.

Lemma stored_states_are_valid :
  Forall (fun st : @fleet_state Utc.maya => Utc.valid (updated st) = true) Utc.stored.
Proof. repeat constructor. Defined.



Lemma sample_dates_exist (days : Z) :
  0 <= days <= 7 -> representable Sample.today days.
Proof. unfold representable, MAXORDINAL. simpl. lia. Defined.

(** C6 on 2019-11-01 with [days = 7]: the range runs from 00:00 of
    2019-10-26 to 00:00 of 2019-11-02. *)
Lemma queried_window_witness :
  issued (snd (get_historical_locked_tokens_over_range Sample.today 7
                 Sample.sample_client))
  = [Query SUM_locked_stake (midnight 737358) (midnight 737365)] /\
  issued (snd (get_historical_num_stakers_over_range Sample.today 7
                 Sample.sample_client))
  = [Query COUNT_staker_address (midnight 737358) (midnight 737365)] /\
  midnight 737365 - midnight 737358 = 7 * us_per_day.
Proof.
  destruct (queried_window_is_the_last_days Sample.today 7 Sample.sample_client
              (sample_dates_exist 7 ltac:(lia)))
    as (Q1 & Q2 & W & _).
  split; [exact Q1|]. split; [exact Q2|exact W].
Defined.

(** The last-observed locked stakes of 2019-10-31 in the sample series:
    20000 for 0xBBB, and 15005 for 0xAAA, its later sample of the day. *)
Lemma sample_last_observed_stakes :
  last_observed_stakes Sample.sample_series 737363 [20000%float; 15005%float].
Proof. apply last_observed_stakes_unique. vm_compute. reflexivity. Defined.



(** C10 on the sample series: samples were observed on 2019-11-01, they
    sum to zero, and the day has no entry. *)
Lemma zero_sum_day_witness :
  observed Sample.sample_series 737364 /\
  daily_locked_stake Sample.sample_series 737364 = PyFloat 0%float /\
  exists locked_tokens_dict,
    fst (get_historical_locked_tokens_over_range Sample.today 3 Sample.sample_client)
    = Return locked_tokens_dict /\
    odict_get (midnight 737364) locked_tokens_dict = None.
Proof.
  split; [vm_compute; discriminate|]. split; [vm_compute; reflexivity|].
  destruct (falsy_aggregates_are_omitted Sample.today 3 Sample.sample_client 737364
              (sample_dates_exist 3 ltac:(lia)))
    as (locked & stakers & R1 & _ & omitted & _).
  - unfold in_window. simpl. lia.
  - exists locked. split; [exact R1|]. apply omitted. vm_compute. reflexivity.
Defined.

(** C7 on a stopped crawler whose time-series store is down. *)
Lemma start_unreachable_witness :
  Crawler.start "network" Sample.unreachable_crawler
  = (Raise ConnectionError, Sample.unreachable_crawler) /\
  Crawler.is_running (snd (Crawler.start "network" Sample.unreachable_crawler))
  = false /\
  Crawler.tasks (snd (Crawler.start "network" Sample.unreachable_crawler)) = [].
Proof.
  apply (start_unreachable_stays_stopped "network" Sample.unreachable_crawler);
    reflexivity.
Defined.

(* ===================================================================== *)
(** * The further properties on concrete inputs                           *)
(* ===================================================================== *)

Lemma sample_file_opens (w : world) :
  unopenable w = ∅ -> _db_filepath Sample.the_storage ∉ unopenable w.
Proof. intros ->. apply not_elem_of_empty. Defined.

(** X1 in the sample process. *)
Lemma readers_leave_the_files_alone_witness :
  files (snd (get_known_nodes_metadata (sqlite := Sample.sqlite)
                (base := Sample.base) Sample.the_storage Sample.populated_world))
  = files Sample.populated_world /\
  files (snd (get_previous_states_metadata (sqlite := Sample.sqlite)
                (maya := Sample.maya) (base := Sample.base)
                Sample.the_storage 5 Sample.populated_world))
  = files Sample.populated_world.
Proof.
  apply (readers_leave_the_files_alone (sqlite := Sample.sqlite)
           (maya := Sample.maya) (base := Sample.base)
           Sample.the_storage 5 Sample.populated_world Sample.populated_db).
  vm_compute. reflexivity.
Defined.

(** X2 on a database file without tables. *)
Lemma readers_raise_without_tables_witness :
  fst (get_known_nodes_metadata (sqlite := Sample.sqlite) (base := Sample.base)
         Sample.the_storage Sample.bare_world)
  = Raise (OperationalError (NoSuchTable "node_info")) /\
  fst (get_previous_states_metadata (sqlite := Sample.sqlite) (maya := Sample.maya)
         (base := Sample.base) Sample.the_storage 5 Sample.bare_world)
  = Raise (OperationalError (NoSuchTable "fleet_state")).
Proof.
  apply (readers_raise_without_tables (sqlite := Sample.sqlite)
           (maya := Sample.maya) (base := Sample.base)
           Sample.the_storage 5 Sample.bare_world ∅).
  - by apply sample_file_opens.
  - vm_compute. reflexivity.
  - reflexivity.
  - reflexivity.
Defined.

(** X3 in the sample process: the one node is found under its address,
    and its record gives the URL under [rest_url]. *)
Lemma known_nodes_witness :
  exists known_nodes,
    fst (get_known_nodes_metadata (sqlite := Sample.sqlite) (base := Sample.base)
           Sample.the_storage Sample.populated_world) = Return known_nodes /\
    exists node_info,
      known_nodes !! VText "0xAAA" = Some node_info /\
      node_info !! "rest_url" = Some (VText "https://10.0.0.1:9151").
Proof.
  destruct (known_nodes_by_address (sqlite := Sample.sqlite) (base := Sample.base)
              Sample.the_storage Sample.populated_world Sample.populated_db
              (Table ["staker_address"; "rest_url"; "nickname"; "timestamp";
                      "last_seen"] (Some 0%nat) [Sample.node_row]))
    as (known_nodes & R & Hrows & _ & _).
  - by apply sample_file_opens.
  - vm_compute. reflexivity.
  - vm_compute. reflexivity.
  - apply (bool_decide_unpack _). vm_compute. reflexivity.
  - discriminate.
  - repeat constructor.
  - apply (bool_decide_unpack _). vm_compute. reflexivity.
  - exists known_nodes. split; [exact R|].
    destruct (Hrows Sample.node_row) as [Hnode Hcols]; [apply list_elem_of_here|].
    eexists. split; [exact Hnode|]. exact (Hcols 1%nat "rest_url" eq_refl).
Defined.

Lemma fresh_has_state_table : has_state_table Sample.fresh.
Proof.
  exists (Table state_columns (Some 0%nat) []).
  repeat split; vm_compute; reflexivity.
Defined.


(** X5: one row without [updated] beside a good one, and no limit. *)
Lemma unreadable_state_witness :
  is_return
    (fst (get_previous_states_metadata (sqlite := Sample.sqlite)
            (maya := Sample.maya) (base := Sample.base)
            Sample.the_storage (-1) Sample.broken_world)) = false.
Proof.
  apply (unreadable_state_fails_the_call (sqlite := Sample.sqlite)
           (maya := Sample.maya) (base := Sample.base)
           Sample.the_storage (-1) Sample.broken_world
           (<["fleet_state" :=
                Table state_columns (Some 0%nat)
                      [Sample.state_row; Sample.broken_state_row]]> Sample.fresh_db)
           (Table state_columns (Some 0%nat)
                  [Sample.state_row; Sample.broken_state_row])
           4 Sample.broken_state_row).
  - by apply sample_file_opens.
  - vm_compute. reflexivity.
  - vm_compute. reflexivity.
  - reflexivity.
  - apply list_elem_of_further, list_elem_of_here.
  - vm_compute. reflexivity.
  - left. lia.
Defined.

(** X8 on the populated store. *)
Lemma nicknames_stay_distinct_witness :
  NoDup (cell 0 <$>
         state_rows (snd (store_state_metadata (sqlite := Sample.sqlite)
                            (base := Sample.base)
                            Sample.updated_state Sample.populated))).
Proof.
  apply (nicknames_stay_distinct (sqlite := Sample.sqlite) (base := Sample.base)
           Sample.updated_state Sample.populated).
  - exact populated_has_state_table.
  - apply (bool_decide_unpack _). vm_compute. reflexivity.
Defined.

(** X9: two states of different nicknames written to the fresh store. *)
Lemma new_nicknames_witness :
  exists s',
    for_each [Sample.other_state; Sample.first_state]
      (store_state_metadata (sqlite := Sample.sqlite) (base := Sample.base))
      Sample.fresh = (Return tt, s') /\
    state_rows s' = [Sample.older_state_row; Sample.state_row].
Proof.
  apply (new_nicknames_are_appended (sqlite := Sample.sqlite) (base := Sample.base)
           [Sample.other_state; Sample.first_state] Sample.fresh).
  - exact fresh_has_state_table.
  - apply (bool_decide_unpack _). vm_compute. reflexivity.
  - repeat constructor; apply not_elem_of_nil.
Defined.

Lemma sample_base_keeps_state_table (s0 : store (list (string * string))) :
  exists s1,
    super_init_db_tables (SQLiteForgetfulNodeStorage := Sample.base) s0
    = (Return tt, s1) /\
    db s1 !! STATE_DB_NAME = db s0 !! STATE_DB_NAME.
Proof.
  eexists. split; [reflexivity|]. cbn [db]. unfold Sample.create_if_absent.
  destruct (db s0 !! "node_info"); destruct (_ !! "teacher");
    by rewrite ?lookup_insert_ne.
Defined.

(** X10 with the sample base class, on the populated store. *)
Lemma first_write_after_init_witness :
  exists s1 s2,
    init_db_tables (sqlite := Sample.sqlite) (base := Sample.base) Sample.populated
    = (Return tt, s1) /\
    state_rows s1 = [] /\
    store_state_metadata (sqlite := Sample.sqlite) (base := Sample.base)
      Sample.first_state s1 = (Return tt, s2) /\
    state_rows s2 = [Sample.state_row].
Proof.
  apply (first_write_after_init (sqlite := Sample.sqlite) (base := Sample.base)
           Sample.first_state Sample.populated).
  exact sample_base_keeps_state_table.
Defined.

(** X11 on the sample series: two stakers on 2019-10-31, one on
    2019-11-01, no entry for 2019-10-30. *)
Lemma stakers_by_day_witness :
  exists result,
    fst (get_historical_num_stakers_over_range Sample.today 3 Sample.sample_client)
    = Return result /\
    odict_get (midnight 737363) result = Some (PyInt 2) /\
    odict_get (midnight 737364) result = Some (PyInt 1) /\
    odict_get (midnight 737362) result = None.
Proof.
  destruct (stakers_by_day Sample.today 3 Sample.sample_client
              (sample_dates_exist 3 ltac:(lia)))
    as (result & R & present & absent & _).
  exists result. split; [exact R|]. split; [|split].
  - rewrite (present 737363); [reflexivity|unfold in_window; simpl; lia|].
    vm_compute. discriminate.
  - rewrite (present 737364); [reflexivity|unfold in_window; simpl; lia|].
    vm_compute. discriminate.
  - apply absent; [unfold in_window; simpl; lia|].
    intros Hobs. apply Hobs. vm_compute. reflexivity.
Defined.

(** X12: 800000 days back from 2019-11-01 is before the year 1. *)
Lemma out_of_range_witness :
  get_historical_locked_tokens_over_range Sample.today 800000 Sample.sample_client
  = (Raise OverflowError, Sample.sample_client) /\
  get_historical_num_stakers_over_range Sample.today 800000 Sample.sample_client
  = (Raise OverflowError, Sample.sample_client).
Proof.
  apply (out_of_range_dates_raise Sample.today 800000 Sample.sample_client).
  - unfold MAXORDINAL. simpl. lia.
  - left. simpl. lia.
Defined.

(** X13 on the sample series. *)
Lemma chronological_witness :
  exists locked_tokens_dict num_stakers_dict,
    fst (get_historical_locked_tokens_over_range Sample.today 3 Sample.sample_client)
    = Return locked_tokens_dict /\
    fst (get_historical_num_stakers_over_range Sample.today 3 Sample.sample_client)
    = Return num_stakers_dict /\
    StronglySorted Z.lt locked_tokens_dict.*1 /\
    StronglySorted Z.lt num_stakers_dict.*1 /\
    (length locked_tokens_dict <= 3)%nat /\
    (length num_stakers_dict <= 3)%nat.
Proof.
  destruct (dicts_are_chronological Sample.today 3 Sample.sample_client
              (sample_dates_exist 3 ltac:(lia)))
    as (l & n & R1 & R2 & S1 & S2 & L1 & L2 & _).
  exists l, n. repeat split; assumption.
Defined.

(** X14 on the sample series. *)
Lemma locked_days_witness :
  exists locked_tokens_dict num_stakers_dict,
    fst (get_historical_locked_tokens_over_range Sample.today 3 Sample.sample_client)
    = Return locked_tokens_dict /\
    fst (get_historical_num_stakers_over_range Sample.today 3 Sample.sample_client)
    = Return num_stakers_dict /\
    forall k v, odict_get k locked_tokens_dict = Some v ->
      exists n, odict_get k num_stakers_dict = Some (PyInt n) /\ 0 < n.
Proof.
  exact (locked_days_have_staker_counts Sample.today 3 Sample.sample_client
           (sample_dates_exist 3 ltac:(lia))).
Defined.
